(** * Borrow ledger of the library back end

    A shallow embedding of [src/src/models.py], [src/src/schemas.py],
    [src/src/crud.py] (class [BookRepository]) and of the borrow route of
    [src/main.py], followed by the properties of the borrow / return
    workflow.

    Modelling conventions.
    - A table is the list of its rows in scan order; [Query.first] is the
      first row of that order that passes the filter, [Query.all] the whole
      filtered list.
    - Python [int] is [Z].  A [datetime] is the number of microseconds since
      an arbitrary epoch, so that [datetime + timedelta] is addition in [Z].
    - Every call of [datetime.now()] is an argument of the operation that
      makes it: the operations are functions of the clock readings.
    - [db.commit()] either succeeds or raises [SQLAlchemyError]; its outcome
      is an argument too.  After [db.rollback()], and after a request that
      ends without a commit, the stored tables are the ones the request
      started with.
    - The engine of [src/database.py] is SQLite with its default settings:
      foreign keys are declared in [models.py] but not enforced. *)

From Stdlib Require Import ZArith List String Bool Lia DecimalString.
Import ListNotations.
Open Scope Z_scope.

(** ** Values shared by all modules *)

Definition datetime := Z.

(** [timedelta(days=n)], in microseconds. *)
Definition timedelta (days : Z) : Z := days * 86400000000.

Definition HTTP_400_BAD_REQUEST : Z := 400.
Definition HTTP_404_NOT_FOUND : Z := 404.
Definition HTTP_500_INTERNAL_SERVER_ERROR : Z := 500.

(** The exceptions the modelled code raises. *)
Inductive exn : Type :=
| HTTPException (status_code : Z) (detail : string)
| ValidationError (msg : string).

Inductive result (A : Type) : Type :=
| Ok (a : A)
| Raise (e : exn).

Arguments Ok {A} a.
Arguments Raise {A} e.

Definition bind {A B : Type} (r : result A) (k : A -> result B) : result B :=
  match r with
  | Ok a => k a
  | Raise e => Raise e
  end.

Notation "x <- r ;; k" := (bind r (fun x => k))
  (at level 61, r at next level, right associativity).

(** A list comprehension whose body may raise: the first exception ends it. *)
Fixpoint comprehension {A B : Type} (f : A -> result B) (l : list A)
  : result (list B) :=
  match l with
  | [] => Ok []
  | a :: l' => b <- f a ;; bs <- comprehension f l' ;; Ok (b :: bs)
  end.

(** Outcome of [db.commit()]. *)
Inductive commit_outcome : Type :=
| Committed
| SQLAlchemyError (msg : string).

(** The status code of a raised [HTTPException], if any. *)
Definition status_of {A : Type} (r : result A) : option Z :=
  match r with
  | Raise (HTTPException code _) => Some code
  | _ => None
  end.

Definition succeeds {A : Type} (r : result A) : Prop :=
  exists a, r = Ok a.

(** The error kinds of the operation contracts.  The ledger signals a
    conflict with status 400. *)
Definition NotFound {A : Type} (r : result A) : Prop :=
  status_of r = Some HTTP_404_NOT_FOUND.

Definition Conflict {A : Type} (r : result A) : Prop :=
  status_of r = Some HTTP_400_BAD_REQUEST.

Definition is_None {A : Type} (o : option A) : bool :=
  match o with
  | None => true
  | Some _ => false
  end.

(** ** models.py *)

Module User.

Record t : Type := mk {
  id : Z;
  email : string;
  username : string;
  is_active : bool;
  hashed_password : string;
  created_at : datetime;
  updated_at : option datetime
}.

End User.

Module Book.

Record t : Type := mk {
  id : Z;
  title : string;
  author : string;
  isbn : string;
  is_available : bool;
  created_at : datetime;
  updated_at : option datetime
}.

(** The row after [UPDATE books SET is_available = v]: the column
    [updated_at] has [onupdate=datetime.datetime.now]. *)
Definition set_is_available (v : bool) (flush_now : datetime) (b : t) : t :=
  {| id := id b;
     title := title b;
     author := author b;
     isbn := isbn b;
     is_available := v;
     created_at := created_at b;
     updated_at := Some flush_now |}.

End Book.

Module BookBorrow.

Record t : Type := mk {
  id : Z;
  book_id : Z;
  user_id : Z;
  borrow_date : datetime;
  due_date : datetime;
  return_date : option datetime
}.

End BookBorrow.

(** The stored tables. *)
Record Session : Type := mkSession {
  users : list User.t;
  books : list Book.t;
  book_borrows : list BookBorrow.t
}.

(** Primary key given to an inserted row: one more than the largest in use. *)
Definition next_id (ids : list Z) : Z := 1 + fold_right Z.max 0 ids.

(** The unit of work for one loaded [Book] whose attribute [is_available]
    was assigned [v]: an assignment of the value already loaded is no
    change and emits nothing; otherwise the row is updated by primary key. *)
Definition flush_is_available (book : Book.t) (v : bool) (flush_now : datetime)
  (rows : list Book.t) : list Book.t :=
  if Bool.eqb (Book.is_available book) v then rows
  else map (fun b => if Book.id b =? Book.id book
                     then Book.set_is_available v flush_now b else b) rows.

(** The loaded [Book] after the flush and [db.refresh]. *)
Definition refreshed (book : Book.t) (v : bool) (flush_now : datetime) : Book.t :=
  if Bool.eqb (Book.is_available book) v then book
  else Book.set_is_available v flush_now book.

(** The assignments of [return_book] to the loaded borrow record. *)
Definition close_borrow (t_due t_ret : datetime) (r : BookBorrow.t) : BookBorrow.t :=
  {| BookBorrow.id := BookBorrow.id r;
     BookBorrow.book_id := BookBorrow.book_id r;
     BookBorrow.user_id := BookBorrow.user_id r;
     BookBorrow.borrow_date := BookBorrow.borrow_date r;
     BookBorrow.due_date := t_due;
     BookBorrow.return_date := Some t_ret |}.

(** [UPDATE book_borrows SET due_date, return_date WHERE id = borrow.id]. *)
Definition flush_borrow (borrow : BookBorrow.t) (t_due t_ret : datetime)
  (rows : list BookBorrow.t) : list BookBorrow.t :=
  map (fun r => if BookBorrow.id r =? BookBorrow.id borrow
                then close_borrow t_due t_ret r else r) rows.

(** ** schemas.py *)

Module schemas.

(** [BookBase.isbn_length], inherited by [Book]. *)
Definition isbn_length (v : string) : result string :=
  if negb (Nat.eqb (String.length v) 13)
  then Raise (ValidationError "ISBN must be exactly 13 characters")
  else Ok v.

Module Book.

Record t : Type := mk {
  title : string;
  author : string;
  isbn : string;
  id : Z;
  is_available : bool;
  created_at : datetime;
  updated_at : option datetime;
  borrow_date : option datetime;
  due_date : option datetime;
  return_date : option datetime
}.

End Book.

Module BookBorrow.

Record t : Type := mk {
  id : Z;
  book_id : Z;
  user_id : Z;
  borrow_date : datetime;
  due_date : datetime
}.

End BookBorrow.

Module BookBorrowedResponse.

Record t : Type := mk {
  id : Z;
  title : string;
  author : string;
  isbn : string;
  borrow_date : datetime;
  due_date : datetime
}.

End BookBorrowedResponse.

Record BookBorrowRequest : Type := mkBookBorrowRequest {
  user_id : Z
}.

Module BookCreate.

Record t : Type := mk {
  title : string;
  author : string;
  isbn : string
}.

(** Parsing a request body into [BookCreate]: the validator of [BookBase]
    runs on the field [isbn]. *)
Definition model_validate (title author isbn : string) : result t :=
  isbn <- isbn_length isbn ;;
  Ok {| title := title; author := author; isbn := isbn |}.

End BookCreate.

Module UserCreate.

Record t : Type := mk {
  email : string;
  username : string;
  password : string
}.

End UserCreate.

Module UserDeletionResponse.

Record t : Type := mk {
  user_id : Z;
  status : string;
  message : string
}.

End UserDeletionResponse.

End schemas.

(** [str(n)] for a Python [int]. *)
Definition str (n : Z) : string := NilZero.string_of_int (Z.to_int n).

(** ** crud.py, class UserRepository *)

Module UserRepository.

(** [db.query(models.User).filter_by(id=user_id).first()] *)
Definition get_user (db : Session) (user_id : Z) : option User.t :=
  find (fun u => User.id u =? user_id) (users db).

(** [db.query(models.User).filter_by(email=email).first()] *)
Definition get_user_by_email (db : Session) (email : string) : option User.t :=
  find (fun u => String.eqb (User.email u) email) (users db).

(** [created_now] and [updated_now] are the readings the insert takes for
    the column defaults; [is_active] takes its default [True].  The column
    [email] is [unique]: the insert of a stored email raises an
    [IntegrityError] whose text is [violation]. *)
Definition create_user (db : Session) (user : schemas.UserCreate.t)
  (created_now updated_now : datetime) (violation : string)
  (commit : commit_outcome) : result User.t * Session :=
  let hashed_password := schemas.UserCreate.password user in
  let db_user :=
    {| User.id := next_id (map User.id (users db));
       User.email := schemas.UserCreate.email user;
       User.username := schemas.UserCreate.username user;
       User.is_active := true;
       User.hashed_password := hashed_password;
       User.created_at := created_now;
       User.updated_at := Some updated_now |} in
  let raised e :=
    (Raise (HTTPException HTTP_500_INTERNAL_SERVER_ERROR
              (String.append "Failed to create user: " e)), db) in
  if existsb (String.eqb (schemas.UserCreate.email user)) (map User.email (users db))
  then raised violation
  else
    match commit with
    | Committed =>
      (Ok db_user,
       {| users := users db ++ [db_user];
          books := books db;
          book_borrows := book_borrows db |})
    | SQLAlchemyError e => raised e
    end.

(** The collection [user.books] of the relationship of [models.User]: the
    borrow records whose [user_id] is the key of the user. *)
Definition books_of (user : User.t) (rows : list BookBorrow.t) : list BookBorrow.t :=
  filter (fun r => BookBorrow.user_id r =? User.id user) rows.

(** [DELETE FROM book_borrows WHERE id = ?] for every loaded record. *)
Definition delete_borrows (loaded rows : list BookBorrow.t) : list BookBorrow.t :=
  filter
    (fun r => negb (existsb (fun x => BookBorrow.id x =? BookBorrow.id r) loaded))
    rows.

(** The flush of [db.delete(db_user)]: the relationship [books] has
    [cascade="all, delete-orphan"], so the borrow records of the user are
    deleted, then the user row, each by primary key. *)
Definition flush_delete (db_user : User.t) (db : Session) : Session :=
  {| users := filter (fun u => negb (User.id u =? User.id db_user)) (users db);
     books := books db;
     book_borrows :=
       delete_borrows (books_of db_user (book_borrows db)) (book_borrows db) |}.

Definition delete_user (db : Session) (user_id : Z) (commit : commit_outcome)
  : result schemas.UserDeletionResponse.t * Session :=
  match get_user db user_id with
  | None => (Raise (HTTPException HTTP_404_NOT_FOUND "User not found"), db)
  | Some db_user =>
    match commit with
    | Committed =>
      (Ok {| schemas.UserDeletionResponse.user_id := user_id;
             schemas.UserDeletionResponse.status := "success";
             schemas.UserDeletionResponse.message := "User deleted successfully" |},
       flush_delete db_user db)
    | SQLAlchemyError e =>
      (Raise (HTTPException HTTP_500_INTERNAL_SERVER_ERROR
                (String.append "Failed to delete user: " e)), db)
    end
  end.

End UserRepository.

(** ** crud.py, class BookRepository *)

Module BookRepository.

(** [db.query(models.Book).filter_by(id=book_id).first()] *)
Definition query_book (db : Session) (book_id : Z) : option Book.t :=
  find (fun b => Book.id b =? book_id) (books db).

(** The filter of [return_book]: same book, same user, no return date. *)
Definition active_borrow (book_id user_id : Z) (r : BookBorrow.t) : bool :=
  (BookBorrow.book_id r =? book_id)
  && (BookBorrow.user_id r =? user_id)
  && is_None (BookBorrow.return_date r).

Definition query_active_borrow (db : Session) (book_id user_id : Z)
  : option BookBorrow.t :=
  find (active_borrow book_id user_id) (book_borrows db).

(** [created_now] and [updated_now] are the readings the insert takes for
    the column defaults of [created_at] and [updated_at]; [is_available]
    takes its default [True].  The column [isbn] is [unique]: the insert of
    a stored ISBN raises an [IntegrityError], a [SQLAlchemyError], whose
    text is [violation]. *)
Definition create_book (db : Session) (book : schemas.BookCreate.t)
  (created_now updated_now : datetime) (violation : string)
  (commit : commit_outcome) : result Book.t * Session :=
  let db_book :=
    {| Book.id := next_id (map Book.id (books db));
       Book.title := schemas.BookCreate.title book;
       Book.author := schemas.BookCreate.author book;
       Book.isbn := schemas.BookCreate.isbn book;
       Book.is_available := true;
       Book.created_at := created_now;
       Book.updated_at := Some updated_now |} in
  let raised e :=
    (Raise (HTTPException HTTP_500_INTERNAL_SERVER_ERROR
              (String.append "Failed to create book: " e)), db) in
  if existsb (String.eqb (schemas.BookCreate.isbn book)) (map Book.isbn (books db))
  then raised violation
  else
    match commit with
    | Committed =>
      (Ok db_book,
       {| users := users db;
          books := books db ++ [db_book];
          book_borrows := book_borrows db |})
    | SQLAlchemyError e => raised e
    end.

(** [now] is the reading of line 114, [flush_now] the one the flush takes
    for [Book.updated_at]. *)
Definition borrow_book (db : Session) (book_id user_id : Z)
  (now flush_now : datetime) (commit : commit_outcome)
  : result BookBorrow.t * Session :=
  match query_book db book_id with
  | None => (Raise (HTTPException HTTP_404_NOT_FOUND "Book not found"), db)
  | Some book =>
    if negb (Book.is_available book)
    then (Raise (HTTPException HTTP_400_BAD_REQUEST "Book is already borrowed"), db)
    else
      let borrow_date := now in
      let due_date := borrow_date + timedelta 7 in
      match commit with
      | Committed =>
        let borrow :=
          {| BookBorrow.id := next_id (map BookBorrow.id (book_borrows db));
             BookBorrow.book_id := book_id;
             BookBorrow.user_id := user_id;
             BookBorrow.borrow_date := borrow_date;
             BookBorrow.due_date := due_date;
             BookBorrow.return_date := None |} in
        (Ok borrow,
         {| users := users db;
            books := flush_is_available book false flush_now (books db);
            book_borrows := book_borrows db ++ [borrow] |})
      | SQLAlchemyError e =>
        (Raise (HTTPException HTTP_500_INTERNAL_SERVER_ERROR
                  (String.append "Failed to borrow book: " e)), db)
      end
  end.

(** [t_due] and [t_ret] are the readings of lines 142 and 143. *)
Definition return_book (db : Session) (book_id user_id : Z)
  (t_due t_ret flush_now : datetime) (commit : commit_outcome)
  : result Book.t * Session :=
  match query_active_borrow db book_id user_id with
  | None => (Raise (HTTPException HTTP_404_NOT_FOUND "No active borrow found"), db)
  | Some borrow =>
    match query_book db book_id with
    | Some book =>
      match commit with
      | Committed =>
        (Ok (refreshed book true flush_now),
         {| users := users db;
            books := flush_is_available book true flush_now (books db);
            book_borrows := flush_borrow borrow t_due t_ret (book_borrows db) |})
      | SQLAlchemyError e =>
        (Raise (HTTPException HTTP_500_INTERNAL_SERVER_ERROR
                  (String.append "Failed to return book: " e)), db)
      end
    | None => (Raise (HTTPException HTTP_404_NOT_FOUND "Book not found"), db)
    end
  end.

(** A row of the query of [get_all_books]: the [Book] entity and three
    columns of the joined table, all null when no row joins. *)
Definition catalog_row : Type :=
  (Book.t * option datetime * option datetime * option datetime)%type.

Definition borrows_of (b : Book.t) (rows : list BookBorrow.t) : list BookBorrow.t :=
  filter (fun r => Book.id b =? BookBorrow.book_id r) rows.

(** [query(Book, ...).outerjoin(BookBorrow, Book.id == BookBorrow.book_id).all()] *)
Definition outerjoin (bs : list Book.t) (rs : list BookBorrow.t) : list catalog_row :=
  flat_map
    (fun b =>
       match borrows_of b rs with
       | [] => [(b, None, None, None)]
       | joined =>
         map (fun r => (b, Some (BookBorrow.borrow_date r),
                        Some (BookBorrow.due_date r),
                        BookBorrow.return_date r)) joined
       end) bs.

(** [schemas.Book.model_validate] on the dictionary built from a row. *)
Definition model_validate_Book (row : catalog_row) : result schemas.Book.t :=
  let '(b, borrow_date, due_date, return_date) := row in
  isbn <- schemas.isbn_length (Book.isbn b) ;;
  Ok {| schemas.Book.title := Book.title b;
        schemas.Book.author := Book.author b;
        schemas.Book.isbn := isbn;
        schemas.Book.id := Book.id b;
        schemas.Book.is_available := Book.is_available b;
        schemas.Book.created_at := Book.created_at b;
        schemas.Book.updated_at := Book.updated_at b;
        schemas.Book.borrow_date := borrow_date;
        schemas.Book.due_date := due_date;
        schemas.Book.return_date := return_date |}.

Definition get_all_books (db : Session) : result (list schemas.Book.t) :=
  let books := outerjoin (books db) (book_borrows db) in
  comprehension model_validate_Book books.

(** [query(Book.id, ..., BookBorrow.due_date, BookBorrow.borrow_date)
     .join(BookBorrow, Book.id == BookBorrow.book_id)
     .filter(Book.is_available == False).all()], validated row by row. *)
Definition borrowed_row (b : Book.t) (r : BookBorrow.t)
  : schemas.BookBorrowedResponse.t :=
  {| schemas.BookBorrowedResponse.id := Book.id b;
     schemas.BookBorrowedResponse.title := Book.title b;
     schemas.BookBorrowedResponse.author := Book.author b;
     schemas.BookBorrowedResponse.isbn := Book.isbn b;
     schemas.BookBorrowedResponse.borrow_date := BookBorrow.borrow_date r;
     schemas.BookBorrowedResponse.due_date := BookBorrow.due_date r |}.

Definition join_unavailable (bs : list Book.t) (rs : list BookBorrow.t)
  : list schemas.BookBorrowedResponse.t :=
  flat_map
    (fun b =>
       if Bool.eqb (Book.is_available b) false
       then map (borrowed_row b) (borrows_of b rs)
       else []) bs.

Definition get_borrowed_books (db : Session)
  : result (list schemas.BookBorrowedResponse.t) :=
  let borrowed_books := join_unavailable (books db) (book_borrows db) in
  match borrowed_books with
  | [] => Raise (HTTPException HTTP_404_NOT_FOUND "No borrowed books found")
  | _ => Ok borrowed_books
  end.

End BookRepository.

(** ** main.py, route POST /books/{book_id}/borrow *)

Module main.

(** [response_model=schemas.BookBorrow] applied to the returned record. *)
Definition to_BookBorrow (r : BookBorrow.t) : schemas.BookBorrow.t :=
  {| schemas.BookBorrow.id := BookBorrow.id r;
     schemas.BookBorrow.book_id := BookBorrow.book_id r;
     schemas.BookBorrow.user_id := BookBorrow.user_id r;
     schemas.BookBorrow.borrow_date := BookBorrow.borrow_date r;
     schemas.BookBorrow.due_date := BookBorrow.due_date r |}.

(** [current_user] is the authenticated caller that [get_current_user]
    resolved; the handler passes [borrow_request.user_id] on and never
    reads [current_user].  No [ValueError] is raised below it. *)
Definition borrow_book (db : Session) (book_id : Z)
  (borrow_request : schemas.BookBorrowRequest) (current_user : User.t)
  (now flush_now : datetime) (commit : commit_outcome)
  : result schemas.BookBorrow.t * Session :=
  let '(r, db') :=
    BookRepository.borrow_book db book_id (schemas.user_id borrow_request)
      now flush_now commit in
  (borrow <- r ;; Ok (to_BookBorrow borrow), db').

(** Route POST /books/.  The body is parsed into [schemas.BookCreate]
    before the handler runs, and the validation error of a body that does
    not parse is what the framework answers with; [response_model=
    schemas.Book] is applied to the returned row, whose missing borrow
    fields take their default. *)
Definition create_book (db : Session) (title author isbn : string)
  (current_user : User.t) (created_now updated_now : datetime)
  (violation : string) (commit : commit_outcome)
  : result schemas.Book.t * Session :=
  match schemas.BookCreate.model_validate title author isbn with
  | Ok book =>
    let '(r, db') :=
      BookRepository.create_book db book created_now updated_now violation commit in
    (db_book <- r ;;
     BookRepository.model_validate_Book (db_book, None, None, None), db')
  | Raise e => (Raise e, db)
  end.

(** Route DELETE /users/{user_id}. *)
Definition delete_user (db : Session) (user_id : Z) (current_user : User.t)
  (commit : commit_outcome)
  : result schemas.UserDeletionResponse.t * Session :=
  match UserRepository.get_user db user_id with
  | None =>
    (Raise (HTTPException HTTP_404_NOT_FOUND
              (String.append "User " (String.append (str user_id) " not found"))),
     db)
  | Some _ =>
    let '(r, db') := UserRepository.delete_user db user_id commit in
    (_ <- r ;;
     Ok {| schemas.UserDeletionResponse.user_id := user_id;
           schemas.UserDeletionResponse.status := "success";
           schemas.UserDeletionResponse.message := "User deleted successfully" |},
     db')
  end.

End main.

(** ** The ledger as a transition system *)

Import BookRepository.

(** A borrow record is open when its return date is null. *)
Definition is_open (r : BookBorrow.t) : bool := is_None (BookBorrow.return_date r).

Definition open_for (book_id : Z) (r : BookBorrow.t) : bool :=
  (BookBorrow.book_id r =? book_id) && is_open r.

(** The open borrow records of a book, and their number. *)
Definition open_borrows (db : Session) (book_id : Z) : list BookBorrow.t :=
  filter (open_for book_id) (book_borrows db).

Definition open_count (db : Session) (book_id : Z) : nat :=
  List.length (open_borrows db book_id).

(** The borrow records of a (book, member) pair, open or closed. *)
Definition of_pair (book_id user_id : Z) (r : BookBorrow.t) : bool :=
  (BookBorrow.book_id r =? book_id) && (BookBorrow.user_id r =? user_id).

Definition pair_borrows (db : Session) (book_id user_id : Z) : list BookBorrow.t :=
  filter (of_pair book_id user_id) (book_borrows db).

Definition book_exists (db : Session) (book_id : Z) : Prop :=
  exists b, In b (books db) /\ Book.id b = book_id.

(** The availability invariant: a book is unavailable exactly when it has
    exactly one open borrow record. *)
Definition availability_invariant (db : Session) : Prop :=
  forall b, In b (books db) ->
    (Book.is_available b = false <-> open_count db (Book.id b) = 1%nat).

(** What the transitions maintain: an available book has no open record,
    an unavailable one has one, and the primary keys of the borrow records
    are pairwise distinct. *)
Definition ledger_invariant (db : Session) : Prop :=
  NoDup (map BookBorrow.id (book_borrows db)) /\
  forall b, In b (books db) ->
    open_count db (Book.id b) = (if Book.is_available b then 0%nat else 1%nat).

(** The two operations of the ledger with everything their outcome depends
    on besides the stored tables. *)
Inductive operation : Type :=
| Borrow (book_id user_id : Z) (now flush_now : datetime) (commit : commit_outcome)
| Return (book_id user_id : Z) (t_due t_ret flush_now : datetime)
    (commit : commit_outcome).

Definition step (db : Session) (o : operation) : Session :=
  match o with
  | Borrow book_id user_id now flush_now commit =>
    snd (borrow_book db book_id user_id now flush_now commit)
  | Return book_id user_id t_due t_ret flush_now commit =>
    snd (return_book db book_id user_id t_due t_ret flush_now commit)
  end.

Definition run (db : Session) (ops : list operation) : Session :=
  fold_left step ops db.

(** Initial states: every book available, no borrow record. *)
Definition initial (db : Session) : Prop :=
  book_borrows db = [] /\ forall b, In b (books db) -> Book.is_available b = true.

Inductive reachable : Session -> Prop :=
| reachable_initial : forall db, initial db -> reachable db
| reachable_step : forall db o, reachable db -> reachable (step db o).

(** ** Frame of a successful return *)

(** What a return may do to a borrow record [x], given the record [r] it
    matched: another record is kept; the matched one keeps its key, book,
    user and borrow date, and gets both dates of the return. *)
Definition borrow_frame (r : BookBorrow.t) (t_due t_ret : datetime)
  (x y : BookBorrow.t) : Prop :=
  (BookBorrow.id x <> BookBorrow.id r /\ y = x) \/
  (BookBorrow.id x = BookBorrow.id r /\
   BookBorrow.id y = BookBorrow.id x /\
   BookBorrow.book_id y = BookBorrow.book_id x /\
   BookBorrow.user_id y = BookBorrow.user_id x /\
   BookBorrow.borrow_date y = BookBorrow.borrow_date x /\
   BookBorrow.due_date y = t_due /\
   BookBorrow.return_date y = Some t_ret).

(** What an operation on book [book_id] may do to a book row [x]: the row
    is kept, or it is a row of that book, gets the flag [v] and keeps
    everything but the flag and [updated_at]. *)
Definition book_frame (book_id : Z) (v : bool) (x y : Book.t) : Prop :=
  y = x \/
  (Book.id x = book_id /\
   Book.is_available y = v /\
   Book.id y = Book.id x /\
   Book.title y = Book.title x /\
   Book.author y = Book.author x /\
   Book.isbn y = Book.isbn x /\
   Book.created_at y = Book.created_at x).

(** The reading under which a return leaves [due_date] alone: records of
    the same key have the same due date before and after. *)
Definition due_dates_preserved (before after : Session) : Prop :=
  forall r r', In r (book_borrows before) -> In r' (book_borrows after) ->
    BookBorrow.id r' = BookBorrow.id r ->
    BookBorrow.due_date r' = BookBorrow.due_date r.

Definition has_active_borrow (db : Session) (book_id user_id : Z) : Prop :=
  exists r, In r (book_borrows db) /\ active_borrow book_id user_id r = true.

(** ** The round trip, in the words of the specification *)

(** On a state where book [b] exists and is available: borrow, then return
    by the same member, leaves the book available and exactly one record of
    the pair, which is closed; a second borrow before the return fails with
    Conflict and changes nothing. *)
Definition round_trip_as_stated (db : Session) (b m : Z)
  (now flush_now now' flush_now' t_due t_ret flush_now'' : datetime) : Prop :=
  (exists book, query_book db b = Some book /\ Book.is_available book = true) ->
  let db1 := snd (borrow_book db b m now flush_now Committed) in
  let second := borrow_book db1 b m now' flush_now' Committed in
  let db2 := snd (return_book db1 b m t_due t_ret flush_now'' Committed) in
  (exists book, query_book db2 b = Some book /\ Book.is_available book = true) /\
  (exists r, pair_borrows db2 b m = [r] /\ BookBorrow.return_date r <> None) /\
  Conflict (fst second) /\ snd second = db1.

(** ** The listings *)

(** A catalog entry that shows book [b]. *)
Definition entry_of (b : Book.t) (e : schemas.Book.t) : Prop :=
  schemas.Book.id e = Book.id b /\
  schemas.Book.title e = Book.title b /\
  schemas.Book.author e = Book.author b /\
  schemas.Book.isbn e = Book.isbn b /\
  schemas.Book.is_available e = Book.is_available b /\
  schemas.Book.created_at e = Book.created_at b /\
  schemas.Book.updated_at e = Book.updated_at b.

Definition null_metadata (e : schemas.Book.t) : Prop :=
  schemas.Book.borrow_date e = None /\
  schemas.Book.due_date e = None /\
  schemas.Book.return_date e = None.

(** The borrow metadata of an entry of book [b]: null when the book has no
    borrow record at all, else the dates of one of its borrow records. *)
Definition entry_metadata (rs : list BookBorrow.t) (b : Book.t)
  (e : schemas.Book.t) : Prop :=
  (borrows_of b rs = [] /\ null_metadata e) \/
  (exists r, In r rs /\ BookBorrow.book_id r = Book.id b /\
     schemas.Book.borrow_date e = Some (BookBorrow.borrow_date r) /\
     schemas.Book.due_date e = Some (BookBorrow.due_date r) /\
     schemas.Book.return_date e = BookBorrow.return_date r).

(** The catalog listing in the words of the specification: it succeeds
    with one entry per book, and the entries of a book without an open
    borrow have null metadata. *)
Definition catalog_as_stated (db : Session) : Prop :=
  exists entries,
    get_all_books db = Ok entries /\
    List.length entries = List.length (books db) /\
    forall e, In e entries -> open_count db (schemas.Book.id e) = 0%nat ->
      null_metadata e.

(** Every stored ISBN has the length [BookCreate] lets through. *)
Definition valid_isbns (db : Session) : Prop :=
  forall b, In b (books db) -> String.length (Book.isbn b) = 13%nat.

(** ** The catalog and the ledger together *)

(** What identifies a borrow record: key, book, member and borrow date. *)
Definition record_key (r : BookBorrow.t) : Z * Z * Z * datetime :=
  (BookBorrow.id r, BookBorrow.book_id r, BookBorrow.user_id r,
   BookBorrow.borrow_date r).

(** The catalog data of a book: all but the flag and [updated_at]. *)
Definition catalog_data (b : Book.t) : Z * string * string * string * datetime :=
  (Book.id b, Book.title b, Book.author b, Book.isbn b, Book.created_at b).

Definition unavailable_books (db : Session) : list Book.t :=
  filter (fun b => negb (Book.is_available b)) (books db).

Definition open_records (db : Session) : list BookBorrow.t :=
  filter is_open (book_borrows db).

(** Every borrow record is of a stored book. *)
Definition references_books (db : Session) : Prop :=
  forall r, In r (book_borrows db) -> book_exists db (BookBorrow.book_id r).

(** A request of the catalog: the route that creates a book, or an
    operation of the ledger. *)
Inductive request : Type :=
| CreateBook (title author isbn : string) (current_user : User.t)
    (created_now updated_now : datetime) (violation : string)
    (commit : commit_outcome)
| Ledger (o : operation).

Definition serve (db : Session) (q : request) : Session :=
  match q with
  | CreateBook title author isbn current_user created_now updated_now
      violation commit =>
    snd (main.create_book db title author isbn current_user created_now
           updated_now violation commit)
  | Ledger o => step db o
  end.

Definition serve_all (db : Session) (qs : list request) : Session :=
  fold_left serve qs db.

(** A store without books and borrow records, whatever its users. *)
Definition empty_catalog (db : Session) : Prop :=
  books db = [] /\ book_borrows db = [].

Inductive served : Session -> Prop :=
| served_empty : forall db, empty_catalog db -> served db
| served_request : forall db q, served db -> served (serve db q).

(** What the requests of the catalog maintain. *)
Definition store_invariant (db : Session) : Prop :=
  NoDup (map Book.id (books db)) /\
  NoDup (map Book.isbn (books db)) /\
  valid_isbns db /\
  references_books db /\
  ledger_invariant db /\
  List.length (unavailable_books db) = List.length (open_records db).

(** A book that is unavailable without an open borrow record. *)
Definition orphaned (db : Session) (book_id : Z) : Prop :=
  (exists book, query_book db book_id = Some book /\
                Book.is_available book = false) /\
  open_count db book_id = 0%nat.

(** ** Sample data *)

Definition sample_user : User.t :=
  User.mk 1 "test@example.com" "testuser" true "argon2-hash" 0 (Some 0).

Definition sample_book : Book.t :=
  Book.mk 1 "Test Book" "Test Author" "1234567890322" true 0 (Some 0).

Definition sample_db : Session :=
  {| users := [sample_user]; books := [sample_book]; book_borrows := [] |}.

(** The sample state after member 1 borrowed book 1. *)
Definition borrowed_db : Session :=
  snd (borrow_book sample_db 1 1 1000 1001 Committed).

(** An open borrow record whose book row is gone. *)
Definition dangling_db : Session :=
  {| users := [sample_user];
     books := [];
     book_borrows := [BookBorrow.mk 1 1 1 1000 (1000 + timedelta 7) None] |}.

(** The sample state after member 1 returned book 1. *)
Definition returned_db : Session :=
  snd (return_book borrowed_db 1 1 5000 5001 5002 Committed).

(** The sample state after member 1 then borrowed book 1 again. *)
Definition reborrowed_db : Session :=
  snd (borrow_book returned_db 1 1 6000 6001 Committed).

(** * Properties *)

(** ** Queries *)

Lemma query_book_Some : forall db book_id b,
  query_book db book_id = Some b -> In b (books db) /\ Book.id b = book_id.
Proof.
  unfold query_book. intros db book_id b H.
  apply find_some in H. destruct H as [Hin Heq].
  split; [assumption | now apply Z.eqb_eq].
Qed.

Lemma query_book_None : forall db book_id,
  query_book db book_id = None <-> ~ book_exists db book_id.
Proof.
  unfold query_book, book_exists. intros db book_id. split.
  - intros H [b [Hin Hid]].
    pose proof (find_none _ _ H b Hin) as Hn. simpl in Hn.
    apply Z.eqb_neq in Hn. contradiction.
  - intros H. destruct (find _ _) as [b|] eqn:E; [|reflexivity].
    exfalso. apply H. apply find_some in E. destruct E as [Hin Heq].
    exists b. split; [assumption | now apply Z.eqb_eq].
Qed.

Lemma fold_max_upper : forall ids x, In x ids -> x <= fold_right Z.max 0 ids.
Proof.
  induction ids as [|y ids IH]; simpl; intros x H; [contradiction|].
  destruct H as [-> | H]; [lia|]. specialize (IH x H). lia.
Qed.

Lemma next_id_fresh : forall ids, ~ In (next_id ids) ids.
Proof.
  intros ids H. apply fold_max_upper in H. unfold next_id in H. lia.
Qed.

(** ** Borrow *)

(** The three outcomes of [borrow_book], by the book the query finds. *)
Lemma borrow_book_missing : forall db book_id user_id now flush_now commit,
  query_book db book_id = None ->
  borrow_book db book_id user_id now flush_now commit
  = (Raise (HTTPException HTTP_404_NOT_FOUND "Book not found"), db).
Proof. intros. unfold borrow_book. now rewrite H. Qed.

Lemma borrow_book_unavailable : forall db book_id user_id now flush_now commit b,
  query_book db book_id = Some b -> Book.is_available b = false ->
  borrow_book db book_id user_id now flush_now commit
  = (Raise (HTTPException HTTP_400_BAD_REQUEST "Book is already borrowed"), db).
Proof. intros. unfold borrow_book. now rewrite H, H0. Qed.

Lemma borrow_book_available : forall db book_id user_id now flush_now b,
  query_book db book_id = Some b -> Book.is_available b = true ->
  borrow_book db book_id user_id now flush_now Committed
  = (Ok (BookBorrow.mk (next_id (map BookBorrow.id (book_borrows db)))
           book_id user_id now (now + timedelta 7) None),
     {| users := users db;
        books := map (fun x => if Book.id x =? book_id
                               then Book.set_is_available false flush_now x
                               else x) (books db);
        book_borrows := book_borrows db ++
          [BookBorrow.mk (next_id (map BookBorrow.id (book_borrows db)))
             book_id user_id now (now + timedelta 7) None] |}).
Proof.
  intros db book_id user_id now flush_now b Hq Ha. unfold borrow_book.
  rewrite Hq, Ha. simpl. unfold flush_is_available. rewrite Ha. simpl.
  destruct (query_book_Some _ _ _ Hq) as [_ ->]. reflexivity.
Qed.

Lemma borrow_book_rollback : forall db book_id user_id now flush_now msg,
  snd (borrow_book db book_id user_id now flush_now (SQLAlchemyError msg)) = db.
Proof.
  intros. unfold borrow_book.
  destruct (query_book db book_id) as [b|]; [|reflexivity].
  destruct (Book.is_available b); reflexivity.
Qed.

Lemma borrow_book_NotFound : forall db book_id user_id now flush_now commit,
  NotFound (fst (borrow_book db book_id user_id now flush_now commit)) ->
  ~ book_exists db book_id.
Proof.
  intros db book_id user_id now flush_now commit. unfold borrow_book.
  destruct (query_book db book_id) as [b|] eqn:Hq.
  - destruct (Book.is_available b); simpl; [|discriminate].
    destruct commit; discriminate.
  - intros _. now apply query_book_None.
Qed.

(** C2.  Borrow fails with NotFound exactly when no book has the given id,
    and with Conflict exactly when the book exists and is unavailable; a
    failed Borrow leaves users, books and borrow records as they were; in
    the remaining case, once the commit goes through, it returns a
    BorrowRecord that was not in the table and is now its last row. *)
Theorem borrow_failure_contract :
  forall db book_id user_id now flush_now commit,
    let out := borrow_book db book_id user_id now flush_now commit in
    (NotFound (fst out) <-> ~ book_exists db book_id) /\
    (Conflict (fst out) <->
       exists b, query_book db book_id = Some b /\ Book.is_available b = false) /\
    (~ succeeds (fst out) -> snd out = db) /\
    (~ NotFound (fst out) -> ~ Conflict (fst out) -> commit = Committed ->
       exists borrow,
         fst out = Ok borrow /\
         ~ In borrow (book_borrows db) /\
         ~ In (BookBorrow.id borrow) (map BookBorrow.id (book_borrows db)) /\
         book_borrows (snd out) = book_borrows db ++ [borrow]).
Proof.
  intros db book_id user_id now flush_now commit out. subst out.
  destruct (query_book db book_id) as [b|] eqn:Hq.
  - assert (Hex : book_exists db book_id).
    { destruct (query_book_Some _ _ _ Hq). now exists b. }
    destruct (Book.is_available b) eqn:Ha.
    + destruct commit as [|msg].
      * rewrite (borrow_book_available _ _ _ _ _ _ Hq Ha). simpl.
        split; [|split; [|split]].
        -- split; [discriminate | contradiction].
        -- split; [discriminate|]. intros [b' [Hb' Hf]]. congruence.
        -- intros H. exfalso. apply H. eexists. reflexivity.
        -- intros _ _ _. eexists. split; [reflexivity|].
           pose proof (next_id_fresh (map BookBorrow.id (book_borrows db))) as Hfresh.
           split; [|split; [assumption | reflexivity]].
           intros Hin. apply Hfresh.
           apply (in_map BookBorrow.id) in Hin. exact Hin.
      * unfold borrow_book. rewrite Hq, Ha. simpl.
        split; [|split; [|split]].
        -- split; [discriminate | contradiction].
        -- split; [discriminate|]. intros [b' [Hb' Hf]]. congruence.
        -- reflexivity.
        -- discriminate.
    + rewrite (borrow_book_unavailable _ _ _ _ _ _ _ Hq Ha). simpl.
      split; [|split; [|split]].
      * split; [discriminate | contradiction].
      * split; [|reflexivity]. intros _. now exists b.
      * reflexivity.
      * intros _ H. exfalso. apply H. reflexivity.
  - rewrite (borrow_book_missing _ _ _ _ _ _ Hq). simpl.
    apply query_book_None in Hq.
    split; [|split; [|split]].
    + split; [intros _; assumption | reflexivity].
    + split; [discriminate|]. intros [b' [Hb' _]]. discriminate.
    + reflexivity.
    + intros H. exfalso. apply H. reflexivity.
Qed.

Lemma borrow_failure_contract_witness :
  exists borrow,
    fst (borrow_book sample_db 1 1 1000 1001 Committed) = Ok borrow /\
    ~ In borrow (book_borrows sample_db) /\
    ~ In (BookBorrow.id borrow) (map BookBorrow.id (book_borrows sample_db)) /\
    book_borrows (snd (borrow_book sample_db 1 1 1000 1001 Committed))
    = book_borrows sample_db ++ [borrow].
Proof.
  apply (borrow_failure_contract sample_db 1 1 1000 1001 Committed).
  - discriminate.
  - discriminate.
  - reflexivity.
Defined.

Lemma find_update_by_id : forall (f : Book.t -> Book.t) k rows,
  (forall x, Book.id (f x) = Book.id x) ->
  find (fun b => Book.id b =? k)
    (map (fun x => if Book.id x =? k then f x else x) rows)
  = option_map f (find (fun b => Book.id b =? k) rows).
Proof.
  intros f k rows Hid. induction rows as [|x rows IH]; simpl; [reflexivity|].
  destruct (Book.id x =? k) eqn:E.
  - rewrite Hid, E. reflexivity.
  - rewrite E. exact IH.
Qed.

Lemma update_by_id_other : forall (f : Book.t -> Book.t) k rows x,
  In x rows -> Book.id x <> k ->
  In x (map (fun x => if Book.id x =? k then f x else x) rows).
Proof.
  intros f k rows x Hin Hne. apply in_map_iff. exists x. split; [|assumption].
  apply Z.eqb_neq in Hne. now rewrite Hne.
Qed.

(** C3.  When the book exists and is available and the commit goes through,
    Borrow appends exactly one record, not in the table before, dated
    [now], due seven days (604800 seconds) later, with a null return date,
    for the given book and member; the book is unavailable afterwards, the
    other books and the users are untouched. *)
Theorem borrow_success_postcondition :
  forall db book_id user_id now flush_now b,
    query_book db book_id = Some b -> Book.is_available b = true ->
    exists borrow db',
      borrow_book db book_id user_id now flush_now Committed = (Ok borrow, db') /\
      book_borrows db' = book_borrows db ++ [borrow] /\
      ~ In (BookBorrow.id borrow) (map BookBorrow.id (book_borrows db)) /\
      BookBorrow.book_id borrow = book_id /\
      BookBorrow.user_id borrow = user_id /\
      BookBorrow.borrow_date borrow = now /\
      BookBorrow.due_date borrow = BookBorrow.borrow_date borrow + 7 * 86400 * 1000000 /\
      BookBorrow.return_date borrow = None /\
      (exists b', query_book db' book_id = Some b' /\ Book.is_available b' = false) /\
      (forall x, In x (books db') -> Book.id x = book_id -> Book.is_available x = false) /\
      (forall x, In x (books db) -> Book.id x <> book_id -> In x (books db')) /\
      List.length (books db') = List.length (books db) /\
      users db' = users db.
Proof.
  intros db book_id user_id now flush_now b Hq Ha.
  rewrite (borrow_book_available _ _ _ _ _ _ Hq Ha).
  eexists. eexists. split; [reflexivity|]. simpl.
  split; [reflexivity|].
  split; [apply next_id_fresh|].
  do 5 (split; [reflexivity|]).
  split; [|split; [|split; [|split]]].
  - exists (Book.set_is_available false flush_now b). split; [|reflexivity].
    unfold query_book in *. simpl.
    rewrite find_update_by_id by reflexivity. now rewrite Hq.
  - intros x Hin Hid. apply in_map_iff in Hin. destruct Hin as [y [Hy _]].
    destruct (Book.id y =? book_id) eqn:E.
    + subst x. reflexivity.
    + subst x. apply Z.eqb_neq in E. contradiction.
  - intros x Hin Hne. now apply update_by_id_other.
  - apply length_map.
  - reflexivity.
Qed.

(** A state whose users table has no row for member 42. *)
Lemma borrow_success_postcondition_witness :
  exists borrow db',
    borrow_book sample_db 1 42 1000 1001 Committed = (Ok borrow, db') /\
    BookBorrow.due_date borrow = 604800001000 /\
    BookBorrow.return_date borrow = None.
Proof.
  destruct (borrow_success_postcondition sample_db 1 42 1000 1001 sample_book
              eq_refl eq_refl)
    as [borrow [db' [H [_ [_ [_ [_ [Hb [Hd [Hr _]]]]]]]]]].
  exists borrow, db'. split; [exact H|]. split; [|exact Hr].
  rewrite Hd, Hb. reflexivity.
Defined.

(** C10.  Borrow never looks at the users table: on an existing, available
    book it succeeds for every [user_id], whether or not a user row has
    that id, and the record it stores carries that [user_id]; NotFound is
    raised only when the book is missing; the route hands the request's
    [user_id] to the repository whoever the authenticated caller is. *)
Theorem borrow_never_checks_member :
  forall db book_id user_id now flush_now commit,
    let out := borrow_book db book_id user_id now flush_now commit in
    (NotFound (fst out) -> ~ book_exists db book_id) /\
    (forall b, query_book db book_id = Some b -> Book.is_available b = true ->
       commit = Committed ->
       exists borrow,
         fst out = Ok borrow /\
         BookBorrow.user_id borrow = user_id /\
         In borrow (book_borrows (snd out))) /\
    (forall us, borrow_book (mkSession us (books db) (book_borrows db))
                  book_id user_id now flush_now commit
                = (fst out, mkSession us (books (snd out)) (book_borrows (snd out)))) /\
    (forall current_user,
       main.borrow_book db book_id (schemas.mkBookBorrowRequest user_id)
         current_user now flush_now commit
       = (borrow <- fst out ;; Ok (main.to_BookBorrow borrow), snd out)).
Proof.
  intros db book_id user_id now flush_now commit out.
  split; [|split; [|split]].
  - apply borrow_book_NotFound.
  - intros b Hq Ha ->. subst out.
    rewrite (borrow_book_available _ _ _ _ _ _ Hq Ha). simpl.
    eexists. split; [reflexivity|]. split; [reflexivity|].
    apply in_or_app. right. now left.
  - intros us. subst out. unfold borrow_book, query_book. simpl.
    destruct (find _ (books db)) as [b|]; [|reflexivity].
    destruct (Book.is_available b); simpl; [|reflexivity].
    destruct commit; reflexivity.
  - intros current_user. subst out. unfold main.borrow_book. simpl.
    destruct (borrow_book db book_id user_id now flush_now commit). reflexivity.
Qed.

Lemma borrow_never_checks_member_witness :
  (forall u, In u (users sample_db) -> User.id u <> 42) /\
  exists borrow,
    fst (borrow_book sample_db 1 42 1000 1001 Committed) = Ok borrow /\
    BookBorrow.user_id borrow = 42 /\
    In borrow (book_borrows (snd (borrow_book sample_db 1 42 1000 1001 Committed))).
Proof.
  split.
  - intros u [<- | []]. discriminate.
  - apply (proj1 (proj2 (borrow_never_checks_member sample_db 1 42 1000 1001 Committed))
             sample_book eq_refl eq_refl eq_refl).
Defined.

(** ** Return *)

Lemma query_active_borrow_Some : forall db book_id user_id r,
  query_active_borrow db book_id user_id = Some r ->
  In r (book_borrows db) /\ active_borrow book_id user_id r = true.
Proof. unfold query_active_borrow. intros. now apply find_some in H. Qed.

Lemma query_active_borrow_None : forall db book_id user_id,
  query_active_borrow db book_id user_id = None <->
  ~ has_active_borrow db book_id user_id.
Proof.
  unfold query_active_borrow, has_active_borrow. intros db book_id user_id. split.
  - intros H [r [Hin Ha]]. pose proof (find_none _ _ H r Hin). congruence.
  - intros H. destruct (find _ _) as [r|] eqn:E; [|reflexivity].
    exfalso. apply H. exists r. now apply find_some in E.
Qed.

Lemma active_borrow_fields : forall book_id user_id r,
  active_borrow book_id user_id r = true ->
  BookBorrow.book_id r = book_id /\ BookBorrow.user_id r = user_id /\
  BookBorrow.return_date r = None.
Proof.
  unfold active_borrow. intros book_id user_id r H.
  apply andb_prop in H. destruct H as [H Hn].
  apply andb_prop in H. destruct H as [Hb Hu].
  apply Z.eqb_eq in Hb. apply Z.eqb_eq in Hu.
  destruct (BookBorrow.return_date r); [discriminate|]. auto.
Qed.

(** The outcomes of [return_book]. *)
Lemma return_book_no_borrow : forall db book_id user_id t_due t_ret flush_now commit,
  query_active_borrow db book_id user_id = None ->
  return_book db book_id user_id t_due t_ret flush_now commit
  = (Raise (HTTPException HTTP_404_NOT_FOUND "No active borrow found"), db).
Proof. intros. unfold return_book. now rewrite H. Qed.

Lemma return_book_no_book : forall db book_id user_id t_due t_ret flush_now commit r,
  query_active_borrow db book_id user_id = Some r ->
  query_book db book_id = None ->
  return_book db book_id user_id t_due t_ret flush_now commit
  = (Raise (HTTPException HTTP_404_NOT_FOUND "Book not found"), db).
Proof. intros. unfold return_book. now rewrite H, H0. Qed.

Lemma return_book_committed : forall db book_id user_id t_due t_ret flush_now r book,
  query_active_borrow db book_id user_id = Some r ->
  query_book db book_id = Some book ->
  return_book db book_id user_id t_due t_ret flush_now Committed
  = (Ok (refreshed book true flush_now),
     {| users := users db;
        books := flush_is_available book true flush_now (books db);
        book_borrows := flush_borrow r t_due t_ret (book_borrows db) |}).
Proof. intros. unfold return_book. now rewrite H, H0. Qed.

Lemma return_book_rollback : forall db book_id user_id t_due t_ret flush_now msg,
  snd (return_book db book_id user_id t_due t_ret flush_now (SQLAlchemyError msg)) = db.
Proof.
  intros. unfold return_book.
  destruct (query_active_borrow db book_id user_id); [|reflexivity].
  destruct (query_book db book_id); reflexivity.
Qed.

Lemma return_book_failure_unchanged :
  forall db book_id user_id t_due t_ret flush_now commit,
    let out := return_book db book_id user_id t_due t_ret flush_now commit in
    ~ succeeds (fst out) -> snd out = db.
Proof.
  intros db book_id user_id t_due t_ret flush_now commit out H. subst out.
  unfold return_book in *.
  destruct (query_active_borrow db book_id user_id); [|reflexivity].
  destruct (query_book db book_id); [|reflexivity].
  destruct commit; [|reflexivity].
  exfalso. apply H. eexists. reflexivity.
Qed.

Lemma refreshed_available : forall book flush_now,
  Book.is_available (refreshed book true flush_now) = true.
Proof.
  intros book flush_now. unfold refreshed.
  destruct (Book.is_available book) eqn:E; simpl; [assumption | reflexivity].
Qed.

Lemma refreshed_id : forall book v flush_now,
  Book.id (refreshed book v flush_now) = Book.id book.
Proof.
  intros. unfold refreshed. destruct (Bool.eqb _ _); reflexivity.
Qed.

(** [db.refresh(book)] reads back the row the flush wrote. *)
Lemma query_book_flushed : forall db us rs book_id book v flush_now,
  query_book db book_id = Some book ->
  query_book {| users := us;
                books := flush_is_available book v flush_now (books db);
                book_borrows := rs |} book_id
  = Some (refreshed book v flush_now).
Proof.
  intros db us rs book_id book v flush_now Hq.
  destruct (query_book_Some _ _ _ Hq) as [_ Hid].
  unfold query_book, flush_is_available, refreshed in *. simpl.
  destruct (Bool.eqb (Book.is_available book) v); [assumption|].
  rewrite Hid, find_update_by_id by reflexivity. now rewrite Hq.
Qed.

Lemma flush_borrow_closes : forall r t_due t_ret rows,
  In r rows -> In (close_borrow t_due t_ret r) (flush_borrow r t_due t_ret rows).
Proof.
  intros r t_due t_ret rows Hin. unfold flush_borrow.
  apply in_map_iff. exists r. split; [|assumption]. now rewrite Z.eqb_refl.
Qed.

(** C4, as stated, fails: an open record of the pair exists, yet Return
    raises 404 because the book row is missing. *)
Lemma return_contract_counterexample :
  ~ (succeeds (fst (return_book dangling_db 1 1 5000 5001 5002 Committed)) <->
     has_active_borrow dangling_db 1 1).
Proof.
  intros [_ H].
  assert (Ha : has_active_borrow dangling_db 1 1).
  { eexists. split; [left; reflexivity | reflexivity]. }
  destruct (H Ha) as [book Hb]. discriminate.
Qed.

(** C4, amended.  With a commit that goes through, Return succeeds exactly
    when an open record of the (book, member) pair exists and the book row
    exists.  On success the matched record is stored with return date
    [t_ret], the book is stored available and is the value returned.
    Without an open record of the pair, and also without the book row,
    Return fails with NotFound; every failed Return leaves all tables as
    they were. *)
Theorem return_contract :
  forall db book_id user_id t_due t_ret flush_now commit,
    let out := return_book db book_id user_id t_due t_ret flush_now commit in
    (commit = Committed ->
       (succeeds (fst out) <->
        has_active_borrow db book_id user_id /\ book_exists db book_id)) /\
    (forall book', fst out = Ok book' ->
       Book.id book' = book_id /\
       Book.is_available book' = true /\
       query_book (snd out) book_id = Some book' /\
       exists r r',
         query_active_borrow db book_id user_id = Some r /\
         In r' (book_borrows (snd out)) /\
         BookBorrow.id r' = BookBorrow.id r /\
         BookBorrow.book_id r' = book_id /\
         BookBorrow.user_id r' = user_id /\
         BookBorrow.return_date r' = Some t_ret) /\
    (~ has_active_borrow db book_id user_id -> NotFound (fst out)) /\
    (~ book_exists db book_id -> NotFound (fst out)) /\
    (~ succeeds (fst out) -> snd out = db).
Proof.
  intros db book_id user_id t_due t_ret flush_now commit out.
  split; [|split; [|split; [|split]]].
  - intros ->. subst out.
    destruct (query_active_borrow db book_id user_id) as [r|] eqn:Hr.
    + destruct (query_book db book_id) as [book|] eqn:Hq.
      * rewrite (return_book_committed _ _ _ _ _ _ _ _ Hr Hq). simpl. split.
        -- intros _. split.
           ++ exists r. now apply query_active_borrow_Some.
           ++ destruct (query_book_Some _ _ _ Hq). now exists book.
        -- intros _. eexists. reflexivity.
      * rewrite (return_book_no_book _ _ _ _ _ _ _ _ Hr Hq). simpl. split.
        -- intros [a Ha]. discriminate.
        -- intros [_ Hex]. apply query_book_None in Hq. contradiction.
    + rewrite (return_book_no_borrow _ _ _ _ _ _ _ Hr). simpl. split.
      * intros [a Ha]. discriminate.
      * intros [Hex _]. apply query_active_borrow_None in Hr. contradiction.
  - intros book' Hok. subst out. unfold return_book in Hok |- *.
    destruct (query_active_borrow db book_id user_id) as [r|] eqn:Hr;
      [|discriminate].
    destruct (query_book db book_id) as [book|] eqn:Hq; [|discriminate].
    destruct commit; [|discriminate].
    simpl in Hok |- *. injection Hok as <-.
    destruct (query_book_Some _ _ _ Hq) as [_ Hid].
    destruct (query_active_borrow_Some _ _ _ _ Hr) as [Hin Hact].
    destruct (active_borrow_fields _ _ _ Hact) as [Hb [Hu _]].
    split; [now rewrite refreshed_id|].
    split; [apply refreshed_available|].
    split; [now apply query_book_flushed|].
    exists r, (close_borrow t_due t_ret r).
    split; [reflexivity|]. split; [now apply flush_borrow_closes|].
    simpl. auto.
  - intros Hno. subst out. apply query_active_borrow_None in Hno.
    rewrite (return_book_no_borrow _ _ _ _ _ _ _ Hno). reflexivity.
  - intros Hno. subst out. apply query_book_None in Hno.
    destruct (query_active_borrow db book_id user_id) as [r|] eqn:Hr.
    + rewrite (return_book_no_book _ _ _ _ _ _ _ _ Hr Hno). reflexivity.
    + rewrite (return_book_no_borrow _ _ _ _ _ _ _ Hr). reflexivity.
  - apply return_book_failure_unchanged.
Qed.

Lemma return_contract_witness :
  succeeds (fst (return_book borrowed_db 1 1 5000 5001 5002 Committed)) <->
  has_active_borrow borrowed_db 1 1 /\ book_exists borrowed_db 1.
Proof.
  apply (return_contract borrowed_db 1 1 5000 5001 5002 Committed). reflexivity.
Defined.

Lemma Forall2_map_self : forall (A : Type) (R : A -> A -> Prop) (f : A -> A) l,
  (forall x, In x l -> R x (f x)) -> Forall2 R l (map f l).
Proof.
  intros A R f l. induction l as [|x l IH]; simpl; intros H; constructor.
  - apply H. now left.
  - apply IH. intros y Hy. apply H. now right.
Qed.

Lemma flush_borrow_frame : forall r t_due t_ret rows,
  Forall2 (borrow_frame r t_due t_ret) rows (flush_borrow r t_due t_ret rows).
Proof.
  intros r t_due t_ret rows. unfold flush_borrow.
  apply Forall2_map_self. intros x _. unfold borrow_frame.
  destruct (BookBorrow.id x =? BookBorrow.id r) eqn:E.
  - right. apply Z.eqb_eq in E. simpl. repeat split; auto.
  - left. apply Z.eqb_neq in E. auto.
Qed.

Lemma flush_is_available_frame : forall book v flush_now rows,
  Forall2 (book_frame (Book.id book) v) rows
    (flush_is_available book v flush_now rows).
Proof.
  intros book v flush_now rows. unfold flush_is_available.
  destruct (Bool.eqb (Book.is_available book) v).
  - replace rows with (map (fun x : Book.t => x) rows) at 2 by apply map_id.
    apply Forall2_map_self. intros x _. now left.
  - apply Forall2_map_self. intros x _. unfold book_frame.
    destruct (Book.id x =? Book.id book) eqn:E.
    + right. apply Z.eqb_eq in E. simpl. repeat split; auto.
    + now left.
Qed.

(** C5, as stated, fails: the record borrowed at 1000 is due at
    604800001000, and after the return its due date is 5000. *)
Lemma return_frame_counterexample :
  ~ due_dates_preserved borrowed_db
      (snd (return_book borrowed_db 1 1 5000 5001 5002 Committed)).
Proof.
  intros H.
  specialize (H (BookBorrow.mk 1 1 1 1000 604800001000 None)
                (BookBorrow.mk 1 1 1 1000 5000 (Some 5001))).
  simpl in H. discriminate H; auto.
Qed.

(** C5, amended.  A successful Return keeps the users table; every borrow
    record other than the matched one is kept as it is, and the matched
    record keeps its key, book, user and borrow date while its due date
    becomes [t_due] and its return date [t_ret], the two clock readings of
    the return; every row of another book is kept as it is, and a row of
    the returned book keeps everything except [is_available], which
    becomes true, and [updated_at]. *)
Theorem return_frame :
  forall db book_id user_id t_due t_ret flush_now commit book',
    let out := return_book db book_id user_id t_due t_ret flush_now commit in
    fst out = Ok book' ->
    exists r,
      query_active_borrow db book_id user_id = Some r /\
      users (snd out) = users db /\
      Forall2 (borrow_frame r t_due t_ret) (book_borrows db) (book_borrows (snd out)) /\
      In (close_borrow t_due t_ret r) (book_borrows (snd out)) /\
      BookBorrow.due_date (close_borrow t_due t_ret r) = t_due /\
      Forall2 (book_frame book_id true) (books db) (books (snd out)) /\
      (forall x y, book_frame book_id true x y -> Book.id x <> book_id -> y = x).
Proof.
  intros db book_id user_id t_due t_ret flush_now commit book' out Hok.
  subst out. unfold return_book in Hok |- *.
  destruct (query_active_borrow db book_id user_id) as [r|] eqn:Hr;
    [|discriminate].
  destruct (query_book db book_id) as [book|] eqn:Hq; [|discriminate].
  destruct commit; [|discriminate]. simpl.
  destruct (query_book_Some _ _ _ Hq) as [_ Hid].
  destruct (query_active_borrow_Some _ _ _ _ Hr) as [Hin _].
  exists r. split; [reflexivity|]. split; [reflexivity|].
  split; [apply flush_borrow_frame|].
  split; [now apply flush_borrow_closes|].
  split; [reflexivity|].
  split.
  - rewrite <- Hid. apply flush_is_available_frame.
  - intros x y [-> | [Heq _]] Hne; [reflexivity | contradiction].
Qed.

Lemma return_frame_witness :
  exists r,
    query_active_borrow borrowed_db 1 1 = Some r /\
    BookBorrow.due_date r = 604800001000 /\
    In (close_borrow 5000 5001 r)
      (book_borrows (snd (return_book borrowed_db 1 1 5000 5001 5002 Committed))) /\
    BookBorrow.due_date (close_borrow 5000 5001 r) = 5000.
Proof.
  destruct (return_frame borrowed_db 1 1 5000 5001 5002 Committed
              (refreshed (Book.set_is_available false 1001 sample_book) true 5002)
              eq_refl)
    as [r [Hr [_ [_ [Hin [Hd _]]]]]].
  exists r. split; [exact Hr|]. split; [|split; [exact Hin | exact Hd]].
  vm_compute in Hr. injection Hr as <-. reflexivity.
Defined.

(** ** The availability invariant *)

Lemma open_count_insert : forall us bs rows r k,
  open_count {| users := us; books := bs; book_borrows := rows ++ [r] |} k
  = (open_count {| users := us; books := bs; book_borrows := rows |} k
     + (if open_for k r then 1 else 0))%nat.
Proof.
  intros. unfold open_count, open_borrows. simpl.
  rewrite filter_app, length_app. simpl.
  destruct (open_for k r); reflexivity.
Qed.

Lemma flush_borrow_ids : forall r t_due t_ret rows,
  map BookBorrow.id (flush_borrow r t_due t_ret rows) = map BookBorrow.id rows.
Proof.
  intros. unfold flush_borrow. rewrite map_map. apply map_ext.
  intros x. destruct (BookBorrow.id x =? BookBorrow.id r); reflexivity.
Qed.

Lemma flush_borrow_absent : forall r t_due t_ret rows,
  ~ In (BookBorrow.id r) (map BookBorrow.id rows) ->
  flush_borrow r t_due t_ret rows = rows.
Proof.
  intros r t_due t_ret rows. unfold flush_borrow.
  induction rows as [|x rows IH]; simpl; intros H; [reflexivity|].
  destruct (BookBorrow.id x =? BookBorrow.id r) eqn:E.
  - apply Z.eqb_eq in E. exfalso. apply H. now left.
  - f_equal. apply IH. intros Hin. apply H. now right.
Qed.

(** With distinct keys, closing an open record of book [b] takes one off
    the open records of [b] and none off those of another book. *)
Lemma open_count_flush_borrow : forall r t_due t_ret b k rows,
  NoDup (map BookBorrow.id rows) -> In r rows -> open_for b r = true ->
  (List.length (filter (open_for k) (flush_borrow r t_due t_ret rows))
   + (if (k =? b)%Z then 1 else 0))%nat
  = List.length (filter (open_for k) rows).
Proof.
  intros r t_due t_ret b k rows. induction rows as [|x rows IH];
    intros Hnd Hin Hopen; [contradiction|].
  simpl in Hnd. inversion Hnd as [|? ? Hnotin Hnd']; subst.
  destruct Hin as [-> | Hin].
  - change (flush_borrow r t_due t_ret (r :: rows))
      with ((if BookBorrow.id r =? BookBorrow.id r
             then close_borrow t_due t_ret r else r)
            :: flush_borrow r t_due t_ret rows).
    rewrite Z.eqb_refl, (flush_borrow_absent _ _ _ _ Hnotin). simpl.
    unfold open_for in Hopen |- *. simpl.
    apply andb_prop in Hopen. destruct Hopen as [Hb Ho].
    apply Z.eqb_eq in Hb. rewrite Hb, Ho, andb_false_r, andb_true_r.
    rewrite (Z.eqb_sym k b). destruct (b =? k); simpl; lia.
  - assert (Hne : BookBorrow.id x <> BookBorrow.id r).
    { intros E. apply Hnotin. rewrite E. now apply in_map. }
    apply Z.eqb_neq in Hne.
    change (flush_borrow r t_due t_ret (x :: rows))
      with ((if BookBorrow.id x =? BookBorrow.id r
             then close_borrow t_due t_ret x else x)
            :: flush_borrow r t_due t_ret rows).
    rewrite Hne. simpl. specialize (IH Hnd' Hin Hopen).
    destruct (open_for k x); simpl; lia.
Qed.

Lemma NoDup_insert_fresh : forall rows (r : BookBorrow.t),
  NoDup (map BookBorrow.id rows) ->
  ~ In (BookBorrow.id r) (map BookBorrow.id rows) ->
  NoDup (map BookBorrow.id (rows ++ [r])).
Proof.
  intros rows r Hnd Hfresh. rewrite map_app. simpl.
  apply NoDup_app; [assumption | repeat constructor; auto |].
  intros x Hx [<- | []]. contradiction.
Qed.

Lemma active_is_open_for : forall book_id user_id r,
  active_borrow book_id user_id r = true -> open_for book_id r = true.
Proof.
  intros book_id user_id r H.
  destruct (active_borrow_fields _ _ _ H) as [Hb [_ Hn]].
  unfold open_for, is_open. rewrite Hb, Hn, Z.eqb_refl. reflexivity.
Qed.

Lemma open_count_positive : forall db k r,
  In r (book_borrows db) -> open_for k r = true -> (1 <= open_count db k)%nat.
Proof.
  intros db k r Hin Hopen. unfold open_count, open_borrows.
  assert (H : In r (filter (open_for k) (book_borrows db))).
  { apply filter_In. auto. }
  destruct (filter (open_for k) (book_borrows db)); [contradiction | simpl; lia].
Qed.

Lemma initial_ledger_invariant : forall db, initial db -> ledger_invariant db.
Proof.
  intros db [Hnil Havail]. split.
  - rewrite Hnil. constructor.
  - intros b Hin. rewrite (Havail b Hin).
    unfold open_count, open_borrows. now rewrite Hnil.
Qed.

Lemma borrow_book_preserves : forall db book_id user_id now flush_now commit,
  ledger_invariant db ->
  ledger_invariant (snd (borrow_book db book_id user_id now flush_now commit)).
Proof.
  intros db book_id user_id now flush_now commit Hinv.
  destruct commit as [|msg]; [|now rewrite borrow_book_rollback].
  destruct (query_book db book_id) as [book|] eqn:Hq;
    [|now rewrite (borrow_book_missing _ _ _ _ _ _ Hq)].
  destruct (Book.is_available book) eqn:Ha;
    [|now rewrite (borrow_book_unavailable _ _ _ _ _ _ _ Hq Ha)].
  rewrite (borrow_book_available _ _ _ _ _ _ Hq Ha). simpl.
  destruct Hinv as [Hnd Hcount].
  destruct (query_book_Some _ _ _ Hq) as [Hbook Hid].
  pose proof (Hcount book Hbook) as Hzero. rewrite Ha, Hid in Hzero.
  split; simpl.
  - apply NoDup_insert_fresh; [assumption | apply next_id_fresh].
  - intros y Hy. apply in_map_iff in Hy. destruct Hy as [x [Hy Hx]].
    rewrite open_count_insert. unfold open_for, is_open. simpl.
    change (open_count {| users := users db; books := _;
                          book_borrows := book_borrows db |} (Book.id y))
      with (open_count db (Book.id y)).
    destruct (Book.id x =? book_id) eqn:E; subst y; simpl.
    + apply Z.eqb_eq in E. rewrite E, Z.eqb_refl, Hzero. reflexivity.
    + rewrite (Hcount x Hx), (Z.eqb_sym book_id), E. simpl. lia.
Qed.

Lemma return_book_preserves : forall db book_id user_id t_due t_ret flush_now commit,
  ledger_invariant db ->
  ledger_invariant
    (snd (return_book db book_id user_id t_due t_ret flush_now commit)).
Proof.
  intros db book_id user_id t_due t_ret flush_now commit Hinv.
  destruct commit as [|msg]; [|now rewrite return_book_rollback].
  destruct (query_active_borrow db book_id user_id) as [r|] eqn:Hr;
    [|now rewrite (return_book_no_borrow _ _ _ _ _ _ _ Hr)].
  destruct (query_book db book_id) as [book|] eqn:Hq;
    [|now rewrite (return_book_no_book _ _ _ _ _ _ _ _ Hr Hq)].
  rewrite (return_book_committed _ _ _ _ _ _ _ _ Hr Hq). simpl.
  destruct Hinv as [Hnd Hcount].
  destruct (query_book_Some _ _ _ Hq) as [Hbook Hid].
  destruct (query_active_borrow_Some _ _ _ _ Hr) as [Hin Hact].
  apply active_is_open_for in Hact.
  pose proof (open_count_positive db book_id r Hin Hact) as Hpos.
  pose proof (Hcount book Hbook) as Hone. rewrite Hid in Hone.
  destruct (Book.is_available book) eqn:Ha; [lia|].
  assert (Hclosed : forall k,
    (open_count {| users := users db;
                   books := flush_is_available book true flush_now (books db);
                   book_borrows := flush_borrow r t_due t_ret (book_borrows db) |} k
     + (if (k =? book_id)%Z then 1 else 0))%nat = open_count db k).
  { intros k. unfold open_count, open_borrows. simpl.
    now apply open_count_flush_borrow. }
  split; simpl.
  - now rewrite flush_borrow_ids.
  - unfold flush_is_available. rewrite Ha. simpl.
    intros y Hy. apply in_map_iff in Hy. destruct Hy as [x [Hy Hx]].
    specialize (Hclosed (Book.id y)).
    unfold flush_is_available in Hclosed. rewrite Ha in Hclosed. simpl in Hclosed.
    rewrite Hid in Hy.
    destruct (Book.id x =? book_id) eqn:E; subst y; simpl in *.
    + rewrite E in Hclosed. apply Z.eqb_eq in E. rewrite E in Hclosed |- *. lia.
    + rewrite E in Hclosed. rewrite (Hcount x Hx) in Hclosed. lia.
Qed.

Lemma step_preserves : forall db o,
  ledger_invariant db -> ledger_invariant (step db o).
Proof.
  intros db [book_id user_id now flush_now commit
            | book_id user_id t_due t_ret flush_now commit] H; simpl.
  - now apply borrow_book_preserves.
  - now apply return_book_preserves.
Qed.

Lemma reachable_ledger_invariant : forall db, reachable db -> ledger_invariant db.
Proof.
  intros db H. induction H as [db Hinit | db o _ IH].
  - now apply initial_ledger_invariant.
  - now apply step_preserves.
Qed.

Lemma ledger_invariant_availability : forall db,
  ledger_invariant db -> availability_invariant db.
Proof.
  intros db [_ Hcount] b Hin. rewrite (Hcount b Hin).
  destruct (Book.is_available b); split; intros H; try reflexivity; discriminate.
Qed.

Lemma run_reachable : forall ops db, reachable db -> reachable (run db ops).
Proof.
  unfold run. induction ops as [|o ops IH]; simpl; intros db H; [assumption|].
  apply IH. now constructor.
Qed.

(** C1.  In every state reachable from an initial state by Borrow and
    Return operations, whatever their arguments and outcome, a book is
    unavailable if and only if exactly one open borrow record has its id;
    the same holds after any further operation and after any further
    sequence of operations. *)
Theorem availability_invariant_reachable :
  forall db, reachable db ->
    availability_invariant db /\
    (forall o, availability_invariant (step db o)) /\
    (forall ops, availability_invariant (run db ops)).
Proof.
  intros db H. split; [|split].
  - now apply ledger_invariant_availability, reachable_ledger_invariant.
  - intros o. apply ledger_invariant_availability, reachable_ledger_invariant.
    now constructor.
  - intros ops. apply ledger_invariant_availability, reachable_ledger_invariant.
    now apply run_reachable.
Qed.

Lemma sample_db_initial : initial sample_db.
Proof.
  split; [reflexivity|]. intros b [<- | []]. reflexivity.
Defined.

Lemma availability_invariant_reachable_witness :
  availability_invariant
    (run sample_db [Borrow 1 1 1000 1001 Committed;
                    Return 1 1 5000 5001 5002 Committed;
                    Borrow 1 1 6000 6001 Committed]).
Proof.
  apply (availability_invariant_reachable sample_db
           (reachable_initial sample_db sample_db_initial)).
Defined.

(** ** Round trip *)

Lemma find_insert : forall (A : Type) (f : A -> bool) l x,
  find f (l ++ [x])
  = match find f l with
    | Some y => Some y
    | None => if f x then Some x else None
    end.
Proof.
  intros A f l x. induction l as [|y l IH]; simpl; [reflexivity|].
  destruct (f y); [reflexivity | exact IH].
Qed.

Lemma flush_borrow_insert : forall r t_due t_ret rows,
  ~ In (BookBorrow.id r) (map BookBorrow.id rows) ->
  flush_borrow r t_due t_ret (rows ++ [r]) = rows ++ [close_borrow t_due t_ret r].
Proof.
  intros r t_due t_ret rows Hfresh.
  pose proof (flush_borrow_absent r t_due t_ret rows Hfresh) as Hrows.
  unfold flush_borrow in *. rewrite map_app, Hrows. simpl.
  now rewrite Z.eqb_refl.
Qed.

(** In a state that satisfies the ledger invariant an available book has
    no open record, whoever the member. *)
Lemma available_no_active_borrow : forall db book_id user_id book,
  ledger_invariant db ->
  query_book db book_id = Some book -> Book.is_available book = true ->
  ~ has_active_borrow db book_id user_id.
Proof.
  intros db book_id user_id book [_ Hcount] Hq Ha [r [Hin Hact]].
  destruct (query_book_Some _ _ _ Hq) as [Hbook Hid].
  specialize (Hcount book Hbook). rewrite Ha, Hid in Hcount.
  apply active_is_open_for in Hact.
  pose proof (open_count_positive db book_id r Hin Hact). lia.
Qed.

Lemma reachable_no_active_borrow : forall db book_id user_id book,
  reachable db ->
  query_book db book_id = Some book -> Book.is_available book = true ->
  ~ has_active_borrow db book_id user_id.
Proof.
  intros db book_id user_id book Hreach.
  apply available_no_active_borrow. now apply reachable_ledger_invariant.
Qed.

(** C6, as stated, fails on the state left by an earlier round trip: the
    pair then has two closed records. *)
Lemma round_trip_counterexample :
  ~ round_trip_as_stated returned_db 1 1 6000 6001 6500 6501 7000 7001 7002.
Proof.
  intros H.
  assert (Hpre : exists book,
            query_book returned_db 1 = Some book /\ Book.is_available book = true).
  { eexists. split; reflexivity. }
  destruct (H Hpre) as [_ [[r [Hr _]] _]].
  vm_compute in Hr. discriminate Hr.
Qed.

(** C6, amended.  On a state where book [b] exists and is available and the
    pair (b, m) has no open record, Borrow then Return, both committed,
    leaves the book available and adds exactly one record to those of the
    pair, the record just borrowed, now with return date [t_ret]; no open
    record of the pair is left, and a pair without earlier records has
    exactly one.  A second Borrow before the Return fails with Conflict
    and leaves the tables as they were, whatever its commit outcome. *)
Theorem round_trip :
  forall db b m now flush_now now' flush_now' commit' t_due t_ret flush_now'' book,
    query_book db b = Some book -> Book.is_available book = true ->
    ~ has_active_borrow db b m ->
    let out1 := borrow_book db b m now flush_now Committed in
    let second := borrow_book (snd out1) b m now' flush_now' commit' in
    let out2 := return_book (snd out1) b m t_due t_ret flush_now'' Committed in
    exists borrow,
      fst out1 = Ok borrow /\
      Conflict (fst second) /\ snd second = snd out1 /\
      succeeds (fst out2) /\
      (exists book', query_book (snd out2) b = Some book' /\
                     Book.is_available book' = true) /\
      pair_borrows (snd out2) b m
      = pair_borrows db b m ++ [close_borrow t_due t_ret borrow] /\
      BookBorrow.return_date (close_borrow t_due t_ret borrow) = Some t_ret /\
      ~ has_active_borrow (snd out2) b m /\
      (pair_borrows db b m = [] ->
       pair_borrows (snd out2) b m = [close_borrow t_due t_ret borrow]).
Proof.
  intros db b m now flush_now now' flush_now' commit' t_due t_ret flush_now''
    book Hq Ha Hnone out1 second out2.
  subst second out2 out1.
  rewrite (borrow_book_available _ _ _ _ _ _ Hq Ha).
  set (borrow := BookBorrow.mk (next_id (map BookBorrow.id (book_borrows db)))
                   b m now (now + timedelta 7) None).
  set (db1 := {| users := users db;
                 books := map (fun x => if Book.id x =? b
                                        then Book.set_is_available false flush_now x
                                        else x) (books db);
                 book_borrows := book_borrows db ++ [borrow] |}).
  cbn [fst snd].
  assert (Hq1 : query_book db1 b = Some (Book.set_is_available false flush_now book)).
  { unfold query_book in *. simpl.
    rewrite find_update_by_id by reflexivity. now rewrite Hq. }
  assert (Hr1 : query_active_borrow db1 b m = Some borrow).
  { unfold query_active_borrow. simpl. rewrite find_insert.
    apply query_active_borrow_None in Hnone.
    unfold query_active_borrow in Hnone. rewrite Hnone.
    unfold active_borrow. simpl. now rewrite !Z.eqb_refl. }
  assert (Hfresh : ~ In (BookBorrow.id borrow) (map BookBorrow.id (book_borrows db)))
    by apply next_id_fresh.
  exists borrow. split; [reflexivity|].
  rewrite (borrow_book_unavailable _ _ _ _ _ commit' _ Hq1 eq_refl).
  split; [reflexivity|]. split; [reflexivity|].
  rewrite (return_book_committed _ _ _ _ _ _ _ _ Hr1 Hq1). cbn [fst snd].
  split; [eexists; reflexivity|].
  split.
  { eexists. split; [now apply query_book_flushed | apply refreshed_available]. }
  assert (Hpair : pair_borrows
            {| users := users db1;
               books := flush_is_available
                          (Book.set_is_available false flush_now book) true
                          flush_now'' (books db1);
               book_borrows := flush_borrow borrow t_due t_ret (book_borrows db1) |}
            b m
          = pair_borrows db b m ++ [close_borrow t_due t_ret borrow]).
  { unfold pair_borrows. simpl. rewrite (flush_borrow_insert _ _ _ _ Hfresh).
    rewrite filter_app. simpl. unfold of_pair at 2. simpl.
    now rewrite !Z.eqb_refl. }
  split; [exact Hpair|]. split; [reflexivity|]. split.
  - intros [r [Hin Hact]]. simpl in Hin.
    rewrite (flush_borrow_insert _ _ _ _ Hfresh) in Hin.
    apply in_app_or in Hin. destruct Hin as [Hin | [<- | []]].
    + apply Hnone. now exists r.
    + unfold active_borrow in Hact. simpl in Hact.
      now rewrite andb_false_r in Hact.
  - intros Hempty. rewrite Hpair, Hempty. reflexivity.
Qed.

Lemma round_trip_witness :
  exists borrow,
    fst (borrow_book sample_db 1 1 1000 1001 Committed) = Ok borrow /\
    Conflict (fst (borrow_book borrowed_db 1 1 2000 2001 Committed)) /\
    pair_borrows returned_db 1 1 = [close_borrow 5000 5001 borrow].
Proof.
  assert (Hnone : ~ has_active_borrow sample_db 1 1).
  { intros [r [[] _]]. }
  destruct (round_trip sample_db 1 1 1000 1001 2000 2001 Committed 5000 5001 5002
              sample_book eq_refl eq_refl Hnone)
    as [borrow [H1 [H2 [_ [_ [_ [_ [_ [_ H3]]]]]]]]].
  exists borrow. split; [exact H1|]. split; [exact H2|]. exact (H3 eq_refl).
Defined.

(** ** Listings *)

Lemma comprehension_ok : forall (A B : Type) (f : A -> result B) l,
  (forall a, In a l -> exists b, f a = Ok b) ->
  exists bs, comprehension f l = Ok bs /\ Forall2 (fun a b => f a = Ok b) l bs.
Proof.
  intros A B f l. induction l as [|a l IH]; intros H; simpl.
  - exists []. split; [reflexivity | constructor].
  - destruct (H a (or_introl eq_refl)) as [b Hb].
    destruct IH as [bs [Hbs Hall]]; [intros x Hx; apply H; now right|].
    exists (b :: bs). rewrite Hb, Hbs. simpl. split; [reflexivity|].
    now constructor.
Qed.

Lemma Forall2_in_left : forall (A B : Type) (R : A -> B -> Prop) l l' a,
  Forall2 R l l' -> In a l -> exists b, In b l' /\ R a b.
Proof.
  intros A B R l l' a H. induction H as [|x y l l' Hxy _ IH]; intros Hin.
  - contradiction.
  - destruct Hin as [-> | Hin].
    + exists y. split; [now left | assumption].
    + destruct (IH Hin) as [b [Hb Hr]]. exists b. split; [now right | assumption].
Qed.

Lemma Forall2_in_right : forall (A B : Type) (R : A -> B -> Prop) l l' b,
  Forall2 R l l' -> In b l' -> exists a, In a l /\ R a b.
Proof.
  intros A B R l l' b H. induction H as [|x y l l' Hxy _ IH]; intros Hin.
  - contradiction.
  - destruct Hin as [-> | Hin].
    + exists x. split; [now left | assumption].
    + destruct (IH Hin) as [a [Ha Hr]]. exists a. split; [now right | assumption].
Qed.

(** The rows of the outer join. *)
Lemma outerjoin_rows : forall bs rs row,
  In row (outerjoin bs rs) <->
  exists b, In b bs /\
    ((borrows_of b rs = [] /\ row = (b, None, None, None)) \/
     (exists r, In r (borrows_of b rs) /\
        row = (b, Some (BookBorrow.borrow_date r),
               Some (BookBorrow.due_date r), BookBorrow.return_date r))).
Proof.
  intros bs rs row. unfold outerjoin. rewrite in_flat_map. split.
  - intros [b [Hb Hrow]]. exists b. split; [assumption|].
    destruct (borrows_of b rs) as [|r0 joined] eqn:E.
    + left. destruct Hrow as [<- | []]. auto.
    + right. apply in_map_iff in Hrow. destruct Hrow as [r [<- Hr]].
      exists r. auto.
  - intros [b [Hb [[Hnil ->] | [r [Hr ->]]]]]; exists b; (split; [assumption|]).
    + rewrite Hnil. now left.
    + destruct (borrows_of b rs) as [|r0 joined] eqn:E; [contradiction|].
      apply in_map_iff. exists r. auto.
Qed.

Lemma outerjoin_length : forall bs rs,
  (List.length bs <= List.length (outerjoin bs rs))%nat /\
  ((forall b, In b bs -> (List.length (borrows_of b rs) <= 1)%nat) ->
   List.length (outerjoin bs rs) = List.length bs).
Proof.
  intros bs rs. unfold outerjoin, catalog_row.
  match goal with |- context [flat_map ?f bs] => set (g := f) end.
  assert (Hone : forall b, (1 <= List.length (g b))%nat).
  { intros b. subst g. cbv beta. destruct (borrows_of b rs); simpl; lia. }
  assert (Hsingle : forall b, (List.length (borrows_of b rs) <= 1)%nat ->
                              List.length (g b) = 1%nat).
  { intros b. subst g. cbv beta.
    destruct (borrows_of b rs) as [|r0 [|r1 joined]]; simpl; intros; lia. }
  clearbody g. induction bs as [|b bs [IHle IHeq]].
  - split; [simpl; lia | reflexivity].
  - change (flat_map g (b :: bs)) with (g b ++ flat_map g bs).
    rewrite length_app.
    change (List.length (b :: bs)) with (S (List.length bs)). split.
    + specialize (Hone b). lia.
    + intros H. rewrite IHeq by (intros x Hx; apply H; now right).
      rewrite (Hsingle b) by (apply H; now left). reflexivity.
Qed.

Lemma model_validate_Book_ok : forall b d1 d2 d3,
  String.length (Book.isbn b) = 13%nat ->
  exists e, model_validate_Book (b, d1, d2, d3) = Ok e /\
    entry_of b e /\
    schemas.Book.borrow_date e = d1 /\
    schemas.Book.due_date e = d2 /\
    schemas.Book.return_date e = d3.
Proof.
  intros b d1 d2 d3 H. unfold model_validate_Book, schemas.isbn_length.
  rewrite H. simpl. eexists. split; [reflexivity|].
  unfold entry_of. simpl. repeat split.
Qed.

Lemma model_validate_Book_inv : forall b d1 d2 d3 e,
  model_validate_Book (b, d1, d2, d3) = Ok e ->
  entry_of b e /\
  schemas.Book.borrow_date e = d1 /\
  schemas.Book.due_date e = d2 /\
  schemas.Book.return_date e = d3.
Proof.
  intros b d1 d2 d3 e. unfold model_validate_Book, schemas.isbn_length.
  destruct (negb _); simpl; [discriminate|].
  intros H. injection H as <-. unfold entry_of. simpl. repeat split.
Qed.

(** A stored ISBN of another length makes the listing raise. *)
Lemma get_all_books_invalid_isbn :
  get_all_books
    {| users := [];
       books := [Book.mk 1 "Test Book" "Test Author" "123" true 0 (Some 0)];
       book_borrows := [] |}
  = Raise (ValidationError "ISBN must be exactly 13 characters").
Proof. reflexivity. Qed.

Lemma borrows_of_In : forall b rs r,
  In r (borrows_of b rs) -> In r rs /\ BookBorrow.book_id r = Book.id b.
Proof.
  unfold borrows_of. intros b rs r H. apply filter_In in H.
  destruct H as [Hin Heq]. apply Z.eqb_eq in Heq. auto.
Qed.

(** The entry validated from a row of the outer join. *)
Lemma catalog_row_entry : forall bs rs row e,
  In row (outerjoin bs rs) -> model_validate_Book row = Ok e ->
  exists b, In b bs /\ fst (fst (fst row)) = b /\
            entry_of b e /\ entry_metadata rs b e.
Proof.
  intros bs rs row e Hrow Hval. apply outerjoin_rows in Hrow.
  destruct Hrow as [b [Hb [[Hnil ->] | [r [Hr ->]]]]];
    apply model_validate_Book_inv in Hval;
    destruct Hval as [Hof [H1 [H2 H3]]];
    exists b; (split; [assumption|]); (split; [reflexivity|]);
    (split; [assumption|]).
  - left. unfold null_metadata. auto.
  - right. exists r. destruct (borrows_of_In _ _ _ Hr). auto.
Qed.

Lemma entry_of_injective : forall b b' e, entry_of b e -> entry_of b' e -> b = b'.
Proof.
  intros [i t a n v c u] [i' t' a' n' v' c' u'] e H H'.
  unfold entry_of in *. simpl in *.
  destruct H as [H1 [H2 [H3 [H4 [H5 [H6 H7]]]]]].
  destruct H' as [H1' [H2' [H3' [H4' [H5' [H6' H7']]]]]].
  congruence.
Qed.

(** C8, as stated, fails on the state left by a borrow and its return:
    book 1 has no open borrow and its entry shows the dates of the closed
    record. *)
Lemma catalog_counterexample : ~ catalog_as_stated returned_db.
Proof.
  intros [entries [Hget [_ Hnull]]].
  vm_compute in Hget. injection Hget as <-.
  destruct (Hnull _ (or_introl eq_refl) eq_refl) as [H _].
  discriminate H.
Qed.

(** C8, amended.  When every stored ISBN has 13 characters the catalog
    listing succeeds, also on an empty store.  Every book of the store has
    an entry and every entry shows a book of the store; the metadata of an
    entry is null when its book has no borrow record at all, open or
    closed, and otherwise is the borrow, due and return date of one of the
    borrow records of its book; every entry of a book without borrow
    records has null metadata.  There are at least as many entries as
    books, and exactly as many when no book has more than one borrow
    record. *)
Theorem catalog_contract :
  forall db, valid_isbns db ->
    exists entries,
      get_all_books db = Ok entries /\
      (forall b, In b (books db) ->
         exists e, In e entries /\ entry_of b e /\
                   entry_metadata (book_borrows db) b e) /\
      (forall e, In e entries ->
         exists b, In b (books db) /\ entry_of b e /\
                   entry_metadata (book_borrows db) b e) /\
      (forall b e, In e entries -> entry_of b e ->
         borrows_of b (book_borrows db) = [] -> null_metadata e) /\
      (List.length (books db) <= List.length entries)%nat /\
      ((forall b, In b (books db) ->
          (List.length (borrows_of b (book_borrows db)) <= 1)%nat) ->
       List.length entries = List.length (books db)) /\
      (books db = [] -> entries = []).
Proof.
  intros db Hisbn. unfold get_all_books.
  set (rows := outerjoin (books db) (book_borrows db)).
  destruct (comprehension_ok _ _ model_validate_Book rows) as [entries [Hok Hall]].
  { intros [[[b d1] d2] d3] Hrow.
    assert (Hb : In b (books db)).
    { apply outerjoin_rows in Hrow.
      destruct Hrow as [b' [Hb' [[_ E] | [r [_ E]]]]]; injection E as -> _ _ _;
        assumption. }
    destruct (model_validate_Book_ok b d1 d2 d3 (Hisbn b Hb)) as [e [He _]].
    now exists e. }
  assert (Hentry : forall e, In e entries ->
            exists b, In b (books db) /\ entry_of b e /\
                      entry_metadata (book_borrows db) b e).
  { intros e He.
    destruct (Forall2_in_right _ _ _ _ _ _ Hall He) as [row [Hrow Hval]].
    destruct (catalog_row_entry _ _ _ _ Hrow Hval) as [b [Hb [_ [Hof Hmeta]]]].
    now exists b. }
  pose proof (Forall2_length Hall) as Hlen.
  destruct (outerjoin_length (books db) (book_borrows db)) as [Hle Heq].
  fold rows in Hle, Heq.
  exists entries. split; [exact Hok|].
  split; [|split; [exact Hentry|split; [|split; [|split]]]].
  - intros b Hb.
    assert (Hrow : exists row, In row rows /\ fst (fst (fst row)) = b).
    { destruct (borrows_of b (book_borrows db)) as [|r joined] eqn:E.
      - exists (b, None, None, None). split; [|reflexivity].
        apply outerjoin_rows. exists b. split; [assumption|]. now left.
      - exists (b, Some (BookBorrow.borrow_date r),
                Some (BookBorrow.due_date r), BookBorrow.return_date r).
        split; [|reflexivity].
        apply outerjoin_rows. exists b. split; [assumption|]. right.
        exists r. split; [rewrite E; now left | reflexivity]. }
    destruct Hrow as [row [Hrow Hfst]].
    destruct (Forall2_in_left _ _ _ _ _ _ Hall Hrow) as [e [He Hval]].
    destruct (catalog_row_entry _ _ _ _ Hrow Hval) as [b' [_ [Hb' [Hof Hmeta]]]].
    rewrite Hfst in Hb'. subst b'. now exists e.
  - intros b e He Hof Hnil.
    destruct (Hentry e He) as [b' [_ [Hof' Hmeta]]].
    rewrite <- (entry_of_injective _ _ _ Hof Hof') in Hmeta.
    destruct Hmeta as [[_ Hnull] | [r [Hr [Hid _]]]]; [exact Hnull|].
    exfalso.
    assert (Hin : In r (borrows_of b (book_borrows db))).
    { unfold borrows_of. apply filter_In. split; [assumption|].
      apply Z.eqb_eq. now symmetry. }
    rewrite Hnil in Hin. contradiction.
  - rewrite <- Hlen. exact Hle.
  - intros H. rewrite <- Hlen. now apply Heq.
  - intros Hnil. subst rows. rewrite Hnil in Hlen. simpl in Hlen.
    destruct entries; [reflexivity | discriminate].
Qed.

Lemma catalog_contract_witness :
  valid_isbns returned_db /\
  exists entries,
    get_all_books returned_db = Ok entries /\
    List.length entries = List.length (books returned_db).
Proof.
  assert (Hisbn : valid_isbns returned_db).
  { intros b [<- | []]. reflexivity. }
  split; [exact Hisbn|].
  destruct (catalog_contract returned_db Hisbn)
    as [entries [Hget [_ [_ [_ [_ [Hlen _]]]]]]].
  exists entries. split; [exact Hget|]. apply Hlen.
  intros b [<- | []]. vm_compute. lia.
Defined.

Lemma join_unavailable_empty : forall bs rs,
  join_unavailable bs rs = [] <->
  forall b, In b bs -> Book.is_available b = false -> borrows_of b rs = [].
Proof.
  intros bs rs. unfold join_unavailable. induction bs as [|x bs IH]; simpl.
  - split; [intros _ b [] | reflexivity].
  - split.
    + intros H. apply app_eq_nil in H. destruct H as [Hx Hrest].
      intros b [<- | Hb] Hb'.
      * rewrite Hb' in Hx. simpl in Hx. now apply map_eq_nil in Hx.
      * now apply IH.
    + intros H.
      rewrite (proj2 IH) by (intros b Hb; apply H; now right).
      rewrite app_nil_r.
      destruct (Book.is_available x) eqn:E; simpl; [reflexivity|].
      now rewrite (H x (or_introl eq_refl) E).
Qed.

(** In the states the ledger reaches, the listing of borrowed books raises
    404 exactly when no book is unavailable. *)
Lemma get_borrowed_books_NotFound : forall db,
  ledger_invariant db ->
  (NotFound (get_borrowed_books db) <->
   forall b, In b (books db) -> Book.is_available b = true).
Proof.
  intros db [_ Hcount]. unfold get_borrowed_books.
  destruct (join_unavailable (books db) (book_borrows db)) as [|e es] eqn:E.
  - split; [|reflexivity]. intros _ b Hb.
    destruct (Book.is_available b) eqn:Ha; [reflexivity|]. exfalso.
    pose proof (proj1 (join_unavailable_empty _ _) E b Hb Ha) as Hnil.
    specialize (Hcount b Hb). rewrite Ha in Hcount.
    unfold open_count, open_borrows in Hcount.
    destruct (filter (open_for (Book.id b)) (book_borrows db)) as [|r l] eqn:F;
      [discriminate|].
    assert (Hr : In r (filter (open_for (Book.id b)) (book_borrows db)))
      by (rewrite F; now left).
    apply filter_In in Hr. destruct Hr as [Hin Hopen].
    unfold open_for in Hopen. apply andb_prop in Hopen. destruct Hopen as [Hid _].
    assert (Hjoin : In r (borrows_of b (book_borrows db))).
    { unfold borrows_of. apply filter_In. split; [assumption|].
      now rewrite Z.eqb_sym. }
    rewrite Hnil in Hjoin. contradiction.
  - split; [discriminate|]. intros Hall. exfalso.
    assert (Hnil : join_unavailable (books db) (book_borrows db) = []).
    { apply join_unavailable_empty. intros b Hb Ha.
      rewrite (Hall b Hb) in Ha. discriminate. }
    congruence.
Qed.

(** C7.  After member 1 borrowed book 1, returned it and borrowed it again,
    a reachable state with one unavailable book and one open borrow record,
    the listing of borrowed books has two entries for that book: the first
    carries the dates of the closed record. *)
Theorem get_borrowed_books_closed_record :
  reachable reborrowed_db /\
  List.length (filter (fun b => negb (Book.is_available b)) (books reborrowed_db))
  = 1%nat /\
  open_borrows reborrowed_db 1
  = [BookBorrow.mk 2 1 1 6000 604800006000 None] /\
  get_borrowed_books reborrowed_db
  = Ok [schemas.BookBorrowedResponse.mk 1 "Test Book" "Test Author"
          "1234567890322" 1000 5000;
        schemas.BookBorrowedResponse.mk 1 "Test Book" "Test Author"
          "1234567890322" 6000 604800006000].
Proof.
  split; [|split; [|split]]; try reflexivity.
  change reborrowed_db
    with (run sample_db [Borrow 1 1 1000 1001 Committed;
                         Return 1 1 5000 5001 5002 Committed;
                         Borrow 1 1 6000 6001 Committed]).
  apply run_reachable. constructor. split; [reflexivity|].
  intros b [<- | []]. reflexivity.
Qed.

(** * Further properties of the ledger *)

Lemma return_book_Ok : forall db book_id user_id t_due t_ret flush_now commit book',
  fst (return_book db book_id user_id t_due t_ret flush_now commit) = Ok book' ->
  exists r book,
    query_active_borrow db book_id user_id = Some r /\
    query_book db book_id = Some book /\
    commit = Committed /\
    book' = refreshed book true flush_now /\
    snd (return_book db book_id user_id t_due t_ret flush_now commit)
    = {| users := users db;
         books := flush_is_available book true flush_now (books db);
         book_borrows := flush_borrow r t_due t_ret (book_borrows db) |}.
Proof.
  intros db book_id user_id t_due t_ret flush_now commit book'.
  unfold return_book.
  destruct (query_active_borrow db book_id user_id) as [r|]; [|discriminate].
  destruct (query_book db book_id) as [book|]; [|discriminate].
  destruct commit; [|discriminate]. simpl. intros H. injection H as <-.
  exists r, book. repeat split.
Qed.

Lemma singleton_members : forall (A : Type) (l : list A) x y,
  List.length l = 1%nat -> In x l -> In y l -> x = y.
Proof.
  intros A [|a [|b l]] x y H Hx Hy; try discriminate.
  destruct Hx as [<- | []]. destruct Hy as [<- | []]. reflexivity.
Qed.

(** X1.  While a member holds a book, a Return of that book by any other
    member fails with 404 and leaves the tables as they were. *)
Theorem return_by_other_member :
  forall db b m m' t_due t_ret flush_now commit book r,
    ledger_invariant db ->
    query_book db b = Some book ->
    In r (book_borrows db) -> active_borrow b m r = true ->
    m' <> m ->
    return_book db b m' t_due t_ret flush_now commit
    = (Raise (HTTPException HTTP_404_NOT_FOUND "No active borrow found"), db).
Proof.
  intros db b m m' t_due t_ret flush_now commit book r [_ Hcount] Hq Hin Hact Hne.
  apply return_book_no_borrow.
  destruct (query_active_borrow db b m') as [r'|] eqn:Hr'; [|reflexivity].
  exfalso.
  destruct (query_active_borrow_Some _ _ _ _ Hr') as [Hin' Hact'].
  destruct (query_book_Some _ _ _ Hq) as [Hbook Hid].
  pose proof (active_is_open_for _ _ _ Hact) as Ho.
  pose proof (active_is_open_for _ _ _ Hact') as Ho'.
  pose proof (open_count_positive db b r Hin Ho) as Hpos.
  specialize (Hcount book Hbook). rewrite Hid in Hcount.
  destruct (Book.is_available book); [lia|].
  assert (Heq : r = r').
  { apply (singleton_members _ (open_borrows db b)); [exact Hcount | |];
      apply filter_In; auto. }
  subst r'.
  destruct (active_borrow_fields _ _ _ Hact) as [_ [Hu _]].
  destruct (active_borrow_fields _ _ _ Hact') as [_ [Hu' _]].
  congruence.
Qed.

Lemma return_by_other_member_witness :
  return_book borrowed_db 1 2 5000 5001 5002 Committed
  = (Raise (HTTPException HTTP_404_NOT_FOUND "No active borrow found"), borrowed_db).
Proof.
  apply (return_by_other_member borrowed_db 1 1 2 5000 5001 5002 Committed
           (Book.set_is_available false 1001 sample_book)
           (BookBorrow.mk 1 1 1 1000 604800001000 None)).
  - apply borrow_book_preserves, initial_ledger_invariant, sample_db_initial.
  - reflexivity.
  - now left.
  - reflexivity.
  - discriminate.
Defined.

(** X2.  After a successful Return a second Return of the same book by the
    same member fails with 404 and changes nothing. *)
Theorem second_return_not_found :
  forall db b m t_due t_ret flush_now commit book' t_due' t_ret' flush_now' commit',
    ledger_invariant db ->
    fst (return_book db b m t_due t_ret flush_now commit) = Ok book' ->
    let db' := snd (return_book db b m t_due t_ret flush_now commit) in
    return_book db' b m t_due' t_ret' flush_now' commit'
    = (Raise (HTTPException HTTP_404_NOT_FOUND "No active borrow found"), db').
Proof.
  intros db b m t_due t_ret flush_now commit book' t_due' t_ret' flush_now' commit'
    Hinv Hok db'.
  assert (Hinv' : ledger_invariant db') by now apply return_book_preserves.
  destruct (return_book_Ok _ _ _ _ _ _ _ _ Hok) as [r [book [_ [Hq [_ [-> Hdb]]]]]].
  apply return_book_no_borrow, query_active_borrow_None.
  apply (available_no_active_borrow db' b m (refreshed book true flush_now) Hinv').
  - subst db'. rewrite Hdb. now apply query_book_flushed.
  - apply refreshed_available.
Qed.

Lemma second_return_not_found_witness :
  return_book returned_db 1 1 7000 7001 7002 Committed
  = (Raise (HTTPException HTTP_404_NOT_FOUND "No active borrow found"), returned_db).
Proof.
  apply (second_return_not_found borrowed_db 1 1 5000 5001 5002 Committed
           (refreshed (Book.set_is_available false 1001 sample_book) true 5002)).
  - apply borrow_book_preserves, initial_ledger_invariant, sample_db_initial.
  - reflexivity.
Defined.

(** X3.  After a successful Return the book can be borrowed at once, by any
    member, when the commit goes through. *)
Theorem borrow_after_return :
  forall db b m t_due t_ret flush_now commit book' m' now flush_now',
    fst (return_book db b m t_due t_ret flush_now commit) = Ok book' ->
    let db' := snd (return_book db b m t_due t_ret flush_now commit) in
    exists borrow,
      fst (borrow_book db' b m' now flush_now' Committed) = Ok borrow /\
      BookBorrow.book_id borrow = b /\
      BookBorrow.user_id borrow = m' /\
      BookBorrow.return_date borrow = None /\
      In borrow (book_borrows (snd (borrow_book db' b m' now flush_now' Committed))).
Proof.
  intros db b m t_due t_ret flush_now commit book' m' now flush_now' Hok db'.
  destruct (return_book_Ok _ _ _ _ _ _ _ _ Hok) as [r [book [_ [Hq [_ [-> Hdb]]]]]].
  assert (Hq' : query_book db' b = Some (refreshed book true flush_now)).
  { subst db'. rewrite Hdb. now apply query_book_flushed. }
  rewrite (borrow_book_available _ _ _ _ _ _ Hq' (refreshed_available _ _)).
  eexists. split; [reflexivity|]. simpl. repeat split.
  apply in_or_app. right. now left.
Qed.

Lemma borrow_after_return_witness :
  exists borrow,
    fst (borrow_book returned_db 1 2 6000 6001 Committed) = Ok borrow /\
    BookBorrow.user_id borrow = 2.
Proof.
  destruct (borrow_after_return borrowed_db 1 1 5000 5001 5002 Committed
              (refreshed (Book.set_is_available false 1001 sample_book) true 5002)
              2 6000 6001 eq_refl)
    as [borrow [H [_ [Hu _]]]].
  exists borrow. split; [exact H | exact Hu].
Defined.

Lemma flush_borrow_keys : forall r t_due t_ret rows,
  map record_key (flush_borrow r t_due t_ret rows) = map record_key rows.
Proof.
  intros. unfold flush_borrow. rewrite map_map. apply map_ext.
  intros x. destruct (BookBorrow.id x =? BookBorrow.id r); reflexivity.
Qed.

Lemma step_keys : forall db o,
  exists added,
    map record_key (book_borrows (step db o))
    = map record_key (book_borrows db) ++ added.
Proof.
  intros db [b m now flush_now commit | b m t_due t_ret flush_now commit]; simpl.
  - unfold borrow_book.
    destruct (query_book db b) as [book|]; [|exists []; now rewrite app_nil_r].
    destruct (Book.is_available book); simpl;
      [|exists []; now rewrite app_nil_r].
    destruct commit; simpl; [|exists []; now rewrite app_nil_r].
    rewrite map_app. eexists. reflexivity.
  - exists []. rewrite app_nil_r. unfold return_book.
    destruct (query_active_borrow db b m) as [r|]; [|reflexivity].
    destruct (query_book db b) as [book|]; [|reflexivity].
    destruct commit; simpl; [|reflexivity].
    apply flush_borrow_keys.
Qed.

(** X4.  The borrow records are a log that only grows at its end: after
    any sequence of Borrow and Return operations the records that were
    stored are all still there, in the same order, each with its key, book,
    member and borrow date. *)
Theorem borrow_records_append_only :
  forall ops db,
    exists added,
      map record_key (book_borrows (run db ops))
      = map record_key (book_borrows db) ++ added.
Proof.
  unfold run. induction ops as [|o ops IH]; intros db; simpl.
  - exists []. now rewrite app_nil_r.
  - destruct (IH (step db o)) as [added Hadded].
    destruct (step_keys db o) as [added0 Hstep].
    exists (added0 ++ added). now rewrite Hadded, Hstep, app_assoc.
Qed.

Lemma NoDup_key_unique : forall rows (r r' : BookBorrow.t),
  NoDup (map BookBorrow.id rows) -> In r rows -> In r' rows ->
  BookBorrow.id r = BookBorrow.id r' -> r = r'.
Proof.
  induction rows as [|x rows IH]; intros r r' Hnd Hr Hr' Hid; [contradiction|].
  simpl in Hnd. inversion Hnd as [|? ? Hnotin Hnd']; subst.
  destruct Hr as [-> | Hr], Hr' as [-> | Hr'].
  - reflexivity.
  - exfalso. apply Hnotin. rewrite Hid. now apply in_map.
  - exfalso. apply Hnotin. rewrite <- Hid. now apply in_map.
  - now apply IH.
Qed.

Lemma closed_record_step : forall db o r,
  ledger_invariant db ->
  In r (book_borrows db) -> is_open r = false ->
  In r (book_borrows (step db o)).
Proof.
  intros db [b m now flush_now commit | b m t_due t_ret flush_now commit] r
    [Hnd _] Hin Hclosed; simpl.
  - unfold borrow_book.
    destruct (query_book db b) as [book|]; [|assumption].
    destruct (Book.is_available book); simpl; [|assumption].
    destruct commit; simpl; [|assumption].
    apply in_or_app. now left.
  - unfold return_book.
    destruct (query_active_borrow db b m) as [r0|] eqn:Hr0; [|assumption].
    destruct (query_book db b) as [book|]; [|assumption].
    destruct commit; simpl; [|assumption].
    destruct (query_active_borrow_Some _ _ _ _ Hr0) as [Hin0 Hact0].
    apply active_is_open_for in Hact0. unfold open_for in Hact0.
    apply andb_prop in Hact0. destruct Hact0 as [_ Hopen0].
    unfold flush_borrow. apply in_map_iff. exists r. split; [|assumption].
    destruct (BookBorrow.id r =? BookBorrow.id r0) eqn:E; [|reflexivity].
    apply Z.eqb_eq in E.
    rewrite (NoDup_key_unique _ _ _ Hnd Hin Hin0 E) in Hclosed. congruence.
Qed.

(** X5.  A closed borrow record is final: in a state that satisfies the
    ledger invariant, as every reachable state does, a record with a return
    date is still stored, unchanged, after any sequence of Borrow and
    Return operations. *)
Theorem closed_record_final :
  forall ops db r,
    ledger_invariant db ->
    In r (book_borrows db) -> is_open r = false ->
    In r (book_borrows (run db ops)).
Proof.
  unfold run. induction ops as [|o ops IH]; intros db r Hinv Hin Hclosed; simpl.
  - assumption.
  - apply IH; [now apply step_preserves | now apply closed_record_step | assumption].
Qed.

Lemma closed_record_final_witness :
  In (BookBorrow.mk 1 1 1 1000 5000 (Some 5001))
    (book_borrows
       (run returned_db [Borrow 1 1 6000 6001 Committed;
                         Return 1 1 8000 8001 8002 Committed])).
Proof.
  apply closed_record_final.
  - apply return_book_preserves, borrow_book_preserves,
      initial_ledger_invariant, sample_db_initial.
  - now left.
  - reflexivity.
Defined.

Lemma flush_is_available_data : forall book v flush_now rows,
  map catalog_data (flush_is_available book v flush_now rows)
  = map catalog_data rows.
Proof.
  intros. unfold flush_is_available.
  destruct (Bool.eqb (Book.is_available book) v); [reflexivity|].
  rewrite map_map. apply map_ext.
  intros x. destruct (Book.id x =? Book.id book); reflexivity.
Qed.

Lemma step_catalog : forall db o,
  users (step db o) = users db /\
  map catalog_data (books (step db o)) = map catalog_data (books db).
Proof.
  intros db [b m now flush_now commit | b m t_due t_ret flush_now commit]; simpl.
  - unfold borrow_book.
    destruct (query_book db b) as [book|]; [|now split].
    destruct (Book.is_available book); simpl; [|now split].
    destruct commit; simpl; [|now split].
    split; [reflexivity | apply flush_is_available_data].
  - unfold return_book.
    destruct (query_active_borrow db b m) as [r|]; [|now split].
    destruct (query_book db b) as [book|]; [|now split].
    destruct commit; simpl; [|now split].
    split; [reflexivity | apply flush_is_available_data].
Qed.

(** X6.  Borrow and Return never touch the users table and never add,
    remove or reorder books: after any sequence of them every book row
    still has its id, title, author, ISBN and creation date. *)
Theorem ledger_keeps_catalog :
  forall ops db,
    users (run db ops) = users db /\
    map catalog_data (books (run db ops)) = map catalog_data (books db).
Proof.
  unfold run. induction ops as [|o ops IH]; intros db; simpl.
  - now split.
  - destruct (IH (step db o)) as [Hu Hb]. destruct (step_catalog db o) as [Hu' Hb'].
    split; congruence.
Qed.

(** * Further properties of the listing of borrowed books *)

(** X7.  In every state reachable from an initial state by Borrow and
    Return operations the listing of borrowed books raises 404 exactly
    when every book is available. *)
Theorem get_borrowed_books_not_found_reachable :
  forall db, reachable db ->
    (NotFound (get_borrowed_books db) <->
     forall b, In b (books db) -> Book.is_available b = true).
Proof.
  intros db H. now apply get_borrowed_books_NotFound, reachable_ledger_invariant.
Qed.

Lemma get_borrowed_books_not_found_reachable_witness :
  NotFound (get_borrowed_books returned_db) <->
  forall b, In b (books returned_db) -> Book.is_available b = true.
Proof.
  apply get_borrowed_books_not_found_reachable.
  apply (reachable_step _ (Return 1 1 5000 5001 5002 Committed)).
  apply (reachable_step _ (Borrow 1 1 1000 1001 Committed)).
  apply reachable_initial, sample_db_initial.
Defined.

Lemma join_unavailable_rows : forall bs rs e,
  In e (join_unavailable bs rs) <->
  exists b r,
    In b bs /\ Book.is_available b = false /\
    In r rs /\ BookBorrow.book_id r = Book.id b /\
    e = borrowed_row b r.
Proof.
  intros bs rs e. unfold join_unavailable. rewrite in_flat_map. split.
  - intros [b [Hb He]]. destruct (Book.is_available b) eqn:Ha; simpl in He;
      [contradiction|].
    apply in_map_iff in He. destruct He as [r [<- Hr]].
    destruct (borrows_of_In _ _ _ Hr) as [Hin Hid].
    exists b, r. auto.
  - intros [b [r [Hb [Ha [Hr [Hid ->]]]]]]. exists b. split; [assumption|].
    rewrite Ha. simpl. apply in_map. unfold borrows_of. apply filter_In.
    split; [assumption|]. apply Z.eqb_eq. now symmetry.
Qed.

Lemma get_borrowed_books_Ok : forall db listed,
  get_borrowed_books db = Ok listed ->
  listed = join_unavailable (books db) (book_borrows db).
Proof.
  intros db listed H. unfold get_borrowed_books in H.
  destruct (join_unavailable (books db) (book_borrows db)); [discriminate|].
  now injection H as <-.
Qed.

(** X8.  What the listing of borrowed books returns: its entries are
    exactly the pairs of an unavailable book and a borrow record of that
    book, so an available book is never listed and every borrow record of
    an unavailable book is. *)
Theorem get_borrowed_books_entries :
  forall db listed,
    get_borrowed_books db = Ok listed ->
    forall e,
      In e listed <->
      exists b r,
        In b (books db) /\ Book.is_available b = false /\
        In r (book_borrows db) /\ BookBorrow.book_id r = Book.id b /\
        e = borrowed_row b r.
Proof.
  intros db listed H e. rewrite (get_borrowed_books_Ok _ _ H).
  apply join_unavailable_rows.
Qed.

Lemma get_borrowed_books_entries_witness :
  In (schemas.BookBorrowedResponse.mk 1 "Test Book" "Test Author"
        "1234567890322" 1000 604800001000)
     [schemas.BookBorrowedResponse.mk 1 "Test Book" "Test Author"
        "1234567890322" 1000 604800001000] <->
  exists b r,
    In b (books borrowed_db) /\ Book.is_available b = false /\
    In r (book_borrows borrowed_db) /\ BookBorrow.book_id r = Book.id b /\
    schemas.BookBorrowedResponse.mk 1 "Test Book" "Test Author"
      "1234567890322" 1000 604800001000 = borrowed_row b r.
Proof.
  apply (get_borrowed_books_entries borrowed_db). reflexivity.
Defined.




(** * The catalog: creating books *)

Lemma isbn_stored : forall isbn rows,
  existsb (String.eqb isbn) (map Book.isbn rows) = true <->
  In isbn (map Book.isbn rows).
Proof.
  intros isbn rows. rewrite existsb_exists. split.
  - intros [x [Hx Heq]]. apply String.eqb_eq in Heq. now subst.
  - intros H. exists isbn. split; [assumption | apply String.eqb_refl].
Qed.

Lemma BookCreate_model_validate_Ok : forall title author isbn book,
  schemas.BookCreate.model_validate title author isbn = Ok book ->
  String.length isbn = 13%nat /\
  book = schemas.BookCreate.mk title author isbn.
Proof.
  intros title author isbn book.
  unfold schemas.BookCreate.model_validate, schemas.isbn_length.
  destruct (Nat.eqb (String.length isbn) 13) eqn:E; simpl; [|discriminate].
  intros H. injection H as <-. apply Nat.eqb_eq in E. auto.
Qed.

Lemma BookCreate_model_validate_Raise : forall title author isbn,
  String.length isbn <> 13%nat ->
  schemas.BookCreate.model_validate title author isbn
  = Raise (ValidationError "ISBN must be exactly 13 characters").
Proof.
  intros title author isbn H.
  unfold schemas.BookCreate.model_validate, schemas.isbn_length.
  apply Nat.eqb_neq in H. now rewrite H.
Qed.

(** The only way the route stores anything. *)
Lemma main_create_book_Ok :
  forall db title author isbn current_user created_now updated_now violation
         commit e,
    fst (main.create_book db title author isbn current_user created_now
           updated_now violation commit) = Ok e ->
    let b := Book.mk (next_id (map Book.id (books db))) title author isbn true
               created_now (Some updated_now) in
    String.length isbn = 13%nat /\
    ~ In isbn (map Book.isbn (books db)) /\
    commit = Committed /\
    model_validate_Book (b, None, None, None) = Ok e /\
    snd (main.create_book db title author isbn current_user created_now
           updated_now violation commit)
    = {| users := users db;
         books := books db ++ [b];
         book_borrows := book_borrows db |}.
Proof.
  intros db title author isbn current_user created_now updated_now violation
    commit e. unfold main.create_book.
  destruct (schemas.BookCreate.model_validate title author isbn) as [book|err]
    eqn:Hv; [|discriminate].
  destruct (BookCreate_model_validate_Ok _ _ _ _ Hv) as [Hlen ->].
  unfold create_book. simpl.
  destruct (existsb (String.eqb isbn) (map Book.isbn (books db))) eqn:Hdup;
    [discriminate|].
  destruct commit; [|discriminate]. simpl. intros He.
  repeat split; try assumption.
  intros Hin. apply isbn_stored in Hin. congruence.
Qed.

Lemma main_create_book_failure :
  forall db title author isbn current_user created_now updated_now violation commit,
    ~ succeeds (fst (main.create_book db title author isbn current_user
                       created_now updated_now violation commit)) ->
    snd (main.create_book db title author isbn current_user created_now
           updated_now violation commit) = db.
Proof.
  intros db title author isbn current_user created_now updated_now violation
    commit. unfold main.create_book.
  destruct (schemas.BookCreate.model_validate title author isbn) as [book|err]
    eqn:Hv; [|reflexivity].
  destruct (BookCreate_model_validate_Ok _ _ _ _ Hv) as [Hlen ->].
  unfold create_book. simpl.
  destruct (existsb (String.eqb isbn) (map Book.isbn (books db)));
    [reflexivity|].
  destruct commit; [|reflexivity]. simpl.
  unfold model_validate_Book, schemas.isbn_length. simpl. rewrite Hlen. simpl.
  intros H. exfalso. apply H. eexists. reflexivity.
Qed.

(** X10.  The route that creates a book: an ISBN that does not have 13
    characters is refused by validation and an ISBN that is already stored
    makes the insert fail with 500, both without any change; otherwise,
    when the commit goes through, the book is stored last with a key no
    book had, available, and the response shows it with null borrow
    metadata; the users and the borrow records are never changed. *)
Theorem create_book_contract :
  forall db title author isbn current_user created_now updated_now violation commit,
    let out := main.create_book db title author isbn current_user created_now
                 updated_now violation commit in
    (String.length isbn <> 13%nat ->
       out = (Raise (ValidationError "ISBN must be exactly 13 characters"), db)) /\
    (String.length isbn = 13%nat -> In isbn (map Book.isbn (books db)) ->
       out = (Raise (HTTPException HTTP_500_INTERNAL_SERVER_ERROR
                       (String.append "Failed to create book: " violation)), db)) /\
    (String.length isbn = 13%nat -> ~ In isbn (map Book.isbn (books db)) ->
       commit = Committed ->
       exists b e,
         out = (Ok e, {| users := users db;
                         books := books db ++ [b];
                         book_borrows := book_borrows db |}) /\
         ~ In (Book.id b) (map Book.id (books db)) /\
         Book.is_available b = true /\
         Book.title b = title /\ Book.author b = author /\ Book.isbn b = isbn /\
         entry_of b e /\ null_metadata e) /\
    (~ succeeds (fst out) -> snd out = db).
Proof.
  intros db title author isbn current_user created_now updated_now violation
    commit out.
  split; [|split; [|split]].
  - intros Hlen. subst out. unfold main.create_book.
    now rewrite (BookCreate_model_validate_Raise _ _ _ Hlen).
  - intros Hlen Hin. subst out. unfold main.create_book, create_book.
    unfold schemas.BookCreate.model_validate, schemas.isbn_length.
    rewrite Hlen. simpl. apply isbn_stored in Hin. now rewrite Hin.
  - intros Hlen Hnew ->. subst out. unfold main.create_book, create_book.
    unfold schemas.BookCreate.model_validate, schemas.isbn_length.
    rewrite Hlen. simpl.
    destruct (existsb (String.eqb isbn) (map Book.isbn (books db))) eqn:Hdup.
    { apply isbn_stored in Hdup. contradiction. }
    simpl. unfold model_validate_Book, schemas.isbn_length. simpl.
    rewrite Hlen. simpl. eexists. eexists. split; [reflexivity|].
    split; [apply next_id_fresh|]. simpl.
    unfold entry_of, null_metadata. simpl. repeat split.
  - apply main_create_book_failure.
Qed.

Lemma create_book_contract_witness :
  exists b e,
    main.create_book sample_db "Second Book" "Test Author" "1234567890143"
      sample_user 10 11 "UNIQUE constraint failed: books.isbn" Committed
    = (Ok e, {| users := users sample_db;
                books := books sample_db ++ [b];
                book_borrows := book_borrows sample_db |}) /\
    Book.id b = 2 /\ null_metadata e.
Proof.
  destruct (create_book_contract sample_db "Second Book" "Test Author"
              "1234567890143" sample_user 10 11
              "UNIQUE constraint failed: books.isbn" Committed)
    as [_ [_ [H _]]].
  destruct H as [b [e [Hout [_ [_ [_ [_ [_ [_ Hnull]]]]]]]]].
  - reflexivity.
  - intros [H | []]. discriminate.
  - reflexivity.
  - exists b, e. split; [exact Hout|]. split; [|exact Hnull].
    vm_compute in Hout. injection Hout as _ Hb. now rewrite <- Hb.
Defined.

(** ** What the requests of the catalog maintain *)

Lemma catalog_data_columns : forall l l',
  map catalog_data l = map catalog_data l' ->
  map Book.id l = map Book.id l' /\ map Book.isbn l = map Book.isbn l'.
Proof.
  intros l l' H. split.
  - transitivity (map (fun d : Z * string * string * string * datetime =>
                         fst (fst (fst (fst d)))) (map catalog_data l)).
    + rewrite map_map. reflexivity.
    + rewrite H, map_map. reflexivity.
  - transitivity (map (fun d : Z * string * string * string * datetime =>
                         snd (fst d)) (map catalog_data l)).
    + rewrite map_map. reflexivity.
    + rewrite H, map_map. reflexivity.
Qed.

Lemma book_exists_ids : forall db k,
  book_exists db k <-> In k (map Book.id (books db)).
Proof.
  intros db k. unfold book_exists. rewrite in_map_iff. split.
  - intros [b [Hb Hid]]. now exists b.
  - intros [b [Hid Hb]]. now exists b.
Qed.

Lemma update_absent : forall (f : Book.t -> Book.t) k rows,
  ~ In k (map Book.id rows) ->
  map (fun b => if Book.id b =? k then f b else b) rows = rows.
Proof.
  intros f k rows. induction rows as [|x rows IH]; simpl; intros H; [reflexivity|].
  destruct (Book.id x =? k) eqn:E.
  - apply Z.eqb_eq in E. exfalso. apply H. now left.
  - f_equal. apply IH. intros Hin. apply H. now right.
Qed.

(** With distinct book keys, flipping the flag of one book moves exactly
    one book in or out of the unavailable ones. *)
Lemma unavailable_update : forall book v flush_now rows,
  NoDup (map Book.id rows) -> In book rows ->
  Book.is_available book = negb v ->
  (List.length
     (filter (fun b => negb (Book.is_available b))
        (map (fun b => if (Book.id b =? Book.id book)%Z
                       then Book.set_is_available v flush_now b else b) rows))
   + (if v then 1 else 0))%nat
  = (List.length (filter (fun b => negb (Book.is_available b)) rows)
     + (if v then 0 else 1))%nat.
Proof.
  intros book v flush_now rows. induction rows as [|x rows IH];
    intros Hnd Hin Ha; [contradiction|].
  simpl in Hnd. inversion Hnd as [|? ? Hnotin Hnd']; subst.
  destruct Hin as [-> | Hin].
  - cbn [map]. rewrite Z.eqb_refl, (update_absent _ _ _ Hnotin).
    cbn [filter]. simpl Book.is_available. rewrite Ha.
    destruct v; simpl; lia.
  - assert (Hne : Book.id x <> Book.id book).
    { intros E. apply Hnotin. rewrite E. now apply in_map. }
    apply Z.eqb_neq in Hne. cbn [map]. rewrite Hne. cbn [filter].
    specialize (IH Hnd' Hin Ha).
    destruct (negb (Book.is_available x)); simpl; lia.
Qed.

Lemma open_records_flush_borrow : forall r t_due t_ret rows,
  NoDup (map BookBorrow.id rows) -> In r rows -> is_open r = true ->
  (List.length (filter is_open (flush_borrow r t_due t_ret rows)) + 1)%nat
  = List.length (filter is_open rows).
Proof.
  intros r t_due t_ret rows. induction rows as [|x rows IH];
    intros Hnd Hin Hopen; [contradiction|].
  simpl in Hnd. inversion Hnd as [|? ? Hnotin Hnd']; subst.
  destruct Hin as [-> | Hin].
  - change (flush_borrow r t_due t_ret (r :: rows))
      with ((if BookBorrow.id r =? BookBorrow.id r
             then close_borrow t_due t_ret r else r)
            :: flush_borrow r t_due t_ret rows).
    rewrite Z.eqb_refl, (flush_borrow_absent _ _ _ _ Hnotin).
    cbn [filter]. rewrite Hopen. simpl. lia.
  - assert (Hne : BookBorrow.id x <> BookBorrow.id r).
    { intros E. apply Hnotin. rewrite E. now apply in_map. }
    apply Z.eqb_neq in Hne.
    change (flush_borrow r t_due t_ret (x :: rows))
      with ((if BookBorrow.id x =? BookBorrow.id r
             then close_borrow t_due t_ret x else x)
            :: flush_borrow r t_due t_ret rows).
    rewrite Hne. cbn [filter]. specialize (IH Hnd' Hin Hopen).
    destruct (is_open x); simpl; lia.
Qed.

Lemma step_references : forall db o,
  references_books db -> references_books (step db o).
Proof.
  intros db o Href r Hr.
  apply book_exists_ids.
  destruct (step_catalog db o) as [_ Hdata].
  destruct (catalog_data_columns _ _ Hdata) as [Hids _]. rewrite Hids.
  apply book_exists_ids. revert Hr.
  destruct o as [b m now flush_now commit | b m t_due t_ret flush_now commit];
    simpl.
  - unfold borrow_book.
    destruct (query_book db b) as [book|] eqn:Hq; [|apply Href].
    destruct (Book.is_available book); simpl; [|apply Href].
    destruct commit; simpl; [|apply Href].
    intros Hr. apply in_app_or in Hr. destruct Hr as [Hr | [<- | []]].
    + now apply Href.
    + simpl. destruct (query_book_Some _ _ _ Hq). now exists book.
  - unfold return_book.
    destruct (query_active_borrow db b m) as [r0|]; [|apply Href].
    destruct (query_book db b) as [book|]; [|apply Href].
    destruct commit; simpl; [|apply Href].
    unfold flush_borrow. intros Hr. apply in_map_iff in Hr.
    destruct Hr as [x [<- Hx]].
    destruct (BookBorrow.id x =? BookBorrow.id r0); simpl; now apply Href.
Qed.

Lemma step_counts : forall db o,
  NoDup (map Book.id (books db)) -> ledger_invariant db ->
  List.length (unavailable_books db) = List.length (open_records db) ->
  List.length (unavailable_books (step db o))
  = List.length (open_records (step db o)).
Proof.
  intros db o Hids [Hnd Hcount] Heq. unfold unavailable_books, open_records in *.
  destruct o as [b m now flush_now commit | b m t_due t_ret flush_now commit];
    simpl.
  - destruct commit as [|msg]; [|now rewrite borrow_book_rollback].
    destruct (query_book db b) as [book|] eqn:Hq;
      [|now rewrite (borrow_book_missing _ _ _ _ _ _ Hq)].
    destruct (Book.is_available book) eqn:Ha;
      [|now rewrite (borrow_book_unavailable _ _ _ _ _ _ _ Hq Ha)].
    rewrite (borrow_book_available _ _ _ _ _ _ Hq Ha). simpl.
    destruct (query_book_Some _ _ _ Hq) as [Hbook Hid].
    pose proof (unavailable_update book false flush_now (books db) Hids Hbook Ha)
      as Hup. rewrite Hid in Hup. simpl in Hup.
    rewrite filter_app, length_app. simpl. lia.
  - destruct commit as [|msg]; [|now rewrite return_book_rollback].
    destruct (query_active_borrow db b m) as [r|] eqn:Hr;
      [|now rewrite (return_book_no_borrow _ _ _ _ _ _ _ Hr)].
    destruct (query_book db b) as [book|] eqn:Hq;
      [|now rewrite (return_book_no_book _ _ _ _ _ _ _ _ Hr Hq)].
    rewrite (return_book_committed _ _ _ _ _ _ _ _ Hr Hq). simpl.
    destruct (query_book_Some _ _ _ Hq) as [Hbook Hid].
    destruct (query_active_borrow_Some _ _ _ _ Hr) as [Hin Hact].
    apply active_is_open_for in Hact.
    pose proof (open_count_positive db b r Hin Hact) as Hpos.
    pose proof (Hcount book Hbook) as Hone. rewrite Hid in Hone.
    destruct (Book.is_available book) eqn:Ha; [lia|].
    unfold open_for in Hact. apply andb_prop in Hact. destruct Hact as [_ Hopen].
    pose proof (unavailable_update book true flush_now (books db) Hids Hbook Ha)
      as Hup. simpl in Hup.
    pose proof (open_records_flush_borrow r t_due t_ret _ Hnd Hin Hopen) as Hrec.
    unfold flush_is_available. rewrite Ha. simpl. lia.
Qed.

Lemma step_store_invariant : forall db o,
  store_invariant db -> store_invariant (step db o).
Proof.
  intros db o [Hids [Hisbn [Hvalid [Href [Hinv Hcounts]]]]].
  destruct (step_catalog db o) as [_ Hdata].
  destruct (catalog_data_columns _ _ Hdata) as [Eids Eisbn].
  split; [now rewrite Eids|]. split; [now rewrite Eisbn|].
  split; [|split; [now apply step_references|split;
    [now apply step_preserves | now apply step_counts]]].
  intros b Hb.
  assert (Hin : In (Book.isbn b) (map Book.isbn (books db))).
  { rewrite <- Eisbn. now apply in_map. }
  apply in_map_iff in Hin. destruct Hin as [b0 [E Hb0]].
  rewrite <- E. now apply Hvalid.
Qed.

Lemma create_store_invariant :
  forall db title author isbn current_user created_now updated_now violation commit,
    store_invariant db ->
    store_invariant
      (snd (main.create_book db title author isbn current_user created_now
              updated_now violation commit)).
Proof.
  intros db title author isbn current_user created_now updated_now violation
    commit Hstore.
  destruct (fst (main.create_book db title author isbn current_user created_now
                   updated_now violation commit)) as [e|err] eqn:Hout.
  - destruct (main_create_book_Ok _ _ _ _ _ _ _ _ _ _ Hout)
      as [Hlen [Hnew [_ [_ ->]]]].
    destruct Hstore as [Hids [Hisbn [Hvalid [Href [[Hnd Hcount] Hcounts]]]]].
    pose proof (next_id_fresh (map Book.id (books db))) as Hfresh.
    unfold store_invariant, valid_isbns, references_books, ledger_invariant,
      unavailable_books, open_records in *. simpl.
    rewrite !map_app, filter_app, length_app. simpl.
    split; [|split; [|split; [|split; [|split; [split|]]]]].
    + apply NoDup_app; [assumption | repeat constructor; auto |].
      intros x Hx [<- | []]. contradiction.
    + apply NoDup_app; [assumption | repeat constructor; auto |].
      intros x Hx [<- | []]. contradiction.
    + intros b Hb. apply in_app_or in Hb. destruct Hb as [Hb | [<- | []]];
        [now apply Hvalid | exact Hlen].
    + intros r Hr. destruct (Href r Hr) as [b [Hb Hid]].
      exists b. split; [apply in_or_app; now left | assumption].
    + assumption.
    + intros b Hb. apply in_app_or in Hb.
      change (open_count {| users := users db; books := _;
                            book_borrows := book_borrows db |} (Book.id b))
        with (open_count db (Book.id b)).
      destruct Hb as [Hb | [<- | []]]; [now apply Hcount|]. simpl.
      unfold open_count, open_borrows.
      destruct (filter (open_for (next_id (map Book.id (books db))))
                  (book_borrows db)) as [|r l] eqn:F; [reflexivity|].
      exfalso.
      assert (Hr : In r (filter (open_for (next_id (map Book.id (books db))))
                           (book_borrows db))) by (rewrite F; now left).
      apply filter_In in Hr. destruct Hr as [Hr Hopen].
      unfold open_for in Hopen. apply andb_prop in Hopen.
      destruct Hopen as [Hid _]. apply Z.eqb_eq in Hid.
      apply Hfresh. rewrite <- Hid. apply book_exists_ids. now apply Href.
    + lia.
  - rewrite main_create_book_failure; [assumption|].
    rewrite Hout. intros [a Ha]. discriminate.
Qed.

Lemma serve_store_invariant : forall db q,
  store_invariant db -> store_invariant (serve db q).
Proof.
  intros db [title author isbn current_user created_now updated_now violation
             commit | o] H; simpl.
  - now apply create_store_invariant.
  - now apply step_store_invariant.
Qed.

Lemma empty_store_invariant : forall db, empty_catalog db -> store_invariant db.
Proof.
  intros db [Hb Hr].
  unfold store_invariant, valid_isbns, references_books, ledger_invariant,
    unavailable_books, open_records.
  rewrite Hb, Hr. simpl.
  repeat split; try constructor; intros x [].
Qed.

Lemma served_store_invariant : forall db, served db -> store_invariant db.
Proof.
  intros db H. induction H as [db Hempty | db q _ IH].
  - now apply empty_store_invariant.
  - now apply serve_store_invariant.
Qed.

Lemma serve_all_served : forall qs db, served db -> served (serve_all db qs).
Proof.
  unfold serve_all. induction qs as [|q qs IH]; simpl; intros db H; [assumption|].
  apply IH. now constructor.
Qed.

(** X11.  The availability invariant survives a growing catalog: in every
    state built from a store without books and borrow records by requests
    that create books, borrow and return, and after any further such
    requests, a book is unavailable if and only if exactly one open borrow
    record has its id. *)
Theorem availability_invariant_served :
  forall db qs, served db -> availability_invariant (serve_all db qs).
Proof.
  intros db qs H. apply ledger_invariant_availability.
  apply (served_store_invariant (serve_all db qs)). now apply serve_all_served.
Qed.

Lemma empty_sample : served (mkSession [sample_user] [] []).
Proof. apply served_empty. split; reflexivity. Defined.

Lemma availability_invariant_served_witness :
  availability_invariant
    (serve_all (mkSession [sample_user] [] [])
       [CreateBook "Test Book" "Test Author" "1234567890322" sample_user 0 0
          "UNIQUE constraint failed: books.isbn" Committed;
        Ledger (Borrow 1 1 1000 1001 Committed);
        CreateBook "Second Book" "Test Author" "1234567890143" sample_user 10 11
          "UNIQUE constraint failed: books.isbn" Committed;
        Ledger (Return 1 1 5000 5001 5002 Committed)]).
Proof.
  apply availability_invariant_served. exact empty_sample.
Defined.




(** X13.  On a store filled through the routes every borrow record is of a
    stored book, so Return never answers that the book is missing: with a
    commit that goes through it succeeds exactly when the (book, member)
    pair has an open record. *)
Theorem served_return_contract :
  forall db b m t_due t_ret flush_now,
    served db ->
    references_books db /\
    (succeeds (fst (return_book db b m t_due t_ret flush_now Committed)) <->
     has_active_borrow db b m) /\
    (forall commit,
       fst (return_book db b m t_due t_ret flush_now commit)
       <> Raise (HTTPException HTTP_404_NOT_FOUND "Book not found")).
Proof.
  intros db b m t_due t_ret flush_now H.
  destruct (served_store_invariant db H) as [_ [_ [_ [Href _]]]].
  split; [exact Href|].
  assert (Hbook : forall r, query_active_borrow db b m = Some r ->
                            exists book, query_book db b = Some book).
  { intros r Hr. destruct (query_active_borrow_Some _ _ _ _ Hr) as [Hin Hact].
    destruct (active_borrow_fields _ _ _ Hact) as [Hb _].
    destruct (query_book db b) as [book|] eqn:Hq; [now exists book|].
    apply query_book_None in Hq. exfalso. apply Hq. rewrite <- Hb.
    now apply Href. }
  split.
  - destruct (query_active_borrow db b m) as [r|] eqn:Hr.
    + destruct (Hbook r eq_refl) as [book Hq].
      rewrite (return_book_committed _ _ _ _ _ _ _ _ Hr Hq). simpl. split.
      * intros _. exists r. now apply query_active_borrow_Some.
      * intros _. eexists. reflexivity.
    + rewrite (return_book_no_borrow _ _ _ _ _ _ _ Hr). simpl. split.
      * intros [a Ha]. discriminate.
      * intros Ha. apply query_active_borrow_None in Hr. contradiction.
  - intros commit. unfold return_book.
    destruct (query_active_borrow db b m) as [r|] eqn:Hr; [|discriminate].
    destruct (Hbook r eq_refl) as [book ->].
    destruct commit; discriminate.
Qed.

Lemma served_return_contract_witness :
  succeeds
    (fst (return_book
            (serve_all (mkSession [sample_user] [] [])
               [CreateBook "Test Book" "Test Author" "1234567890322" sample_user
                  0 0 "UNIQUE constraint failed: books.isbn" Committed;
                Ledger (Borrow 1 1 1000 1001 Committed)])
            1 1 5000 5001 5002 Committed)) <->
  has_active_borrow
    (serve_all (mkSession [sample_user] [] [])
       [CreateBook "Test Book" "Test Author" "1234567890322" sample_user
          0 0 "UNIQUE constraint failed: books.isbn" Committed;
        Ledger (Borrow 1 1 1000 1001 Committed)]) 1 1.
Proof.
  apply served_return_contract. apply serve_all_served. exact empty_sample.
Defined.

(** X14.  On a store filled through the routes there are as many
    unavailable books as open borrow records, and the keys and the ISBNs of
    the books are pairwise distinct. *)
Theorem unavailable_books_match_open_records :
  forall db, served db ->
    List.length (unavailable_books db) = List.length (open_records db) /\
    NoDup (map Book.id (books db)) /\
    NoDup (map Book.isbn (books db)).
Proof.
  intros db H.
  destruct (served_store_invariant db H) as [Hids [Hisbn [_ [_ [_ Hcounts]]]]].
  auto.
Qed.

Lemma unavailable_books_match_open_records_witness :
  List.length
    (unavailable_books
       (serve_all (mkSession [sample_user] [] [])
          [CreateBook "Test Book" "Test Author" "1234567890322" sample_user
             0 0 "UNIQUE constraint failed: books.isbn" Committed;
           Ledger (Borrow 1 1 1000 1001 Committed)]))
  = List.length
      (open_records
         (serve_all (mkSession [sample_user] [] [])
            [CreateBook "Test Book" "Test Author" "1234567890322" sample_user
               0 0 "UNIQUE constraint failed: books.isbn" Committed;
             Ledger (Borrow 1 1 1000 1001 Committed)])).
Proof.
  apply unavailable_books_match_open_records.
  apply serve_all_served. exact empty_sample.
Defined.

(** ** A created book in the listing and in the ledger *)

Lemma comprehension_app : forall (A B : Type) (f : A -> result B) l l' xs ys,
  comprehension f l = Ok xs -> comprehension f l' = Ok ys ->
  comprehension f (l ++ l') = Ok (xs ++ ys).
Proof.
  intros A B f l l'. induction l as [|a l IH]; intros xs ys Hl Hl'; simpl in *.
  - injection Hl as <-. exact Hl'.
  - destruct (f a) as [b|e]; simpl in *; [|discriminate].
    destruct (comprehension f l) as [bs|e]; simpl in *; [|discriminate].
    injection Hl as <-. rewrite (IH bs ys eq_refl Hl'). reflexivity.
Qed.

Lemma fresh_book_has_no_borrows : forall db b,
  references_books db ->
  ~ In (Book.id b) (map Book.id (books db)) ->
  borrows_of b (book_borrows db) = [].
Proof.
  intros db b Href Hfresh. unfold borrows_of.
  destruct (filter _ (book_borrows db)) as [|r l] eqn:F; [reflexivity|].
  exfalso.
  assert (Hr : In r (filter (fun r => Book.id b =? BookBorrow.book_id r)
                       (book_borrows db))) by (rewrite F; now left).
  apply filter_In in Hr. destruct Hr as [Hr Hid]. apply Z.eqb_eq in Hid.
  apply Hfresh. rewrite Hid. apply book_exists_ids. now apply Href.
Qed.

Lemma query_book_created : forall us rows rs b,
  ~ In (Book.id b) (map Book.id rows) ->
  query_book {| users := us; books := rows ++ [b]; book_borrows := rs |}
    (Book.id b) = Some b.
Proof.
  intros us rows rs b Hfresh. unfold query_book. simpl. rewrite find_insert.
  destruct (find (fun x => Book.id x =? Book.id b) rows) as [x|] eqn:E.
  - exfalso. apply find_some in E. destruct E as [Hx Hid].
    apply Z.eqb_eq in Hid. apply Hfresh. rewrite <- Hid. now apply in_map.
  - now rewrite Z.eqb_refl.
Qed.

(** X15.  A created book shows in the catalog at once: when every borrow
    record is of a stored book, as on a store filled through the routes,
    the listing after a successful creation is the listing before it
    followed by one entry, the very response of the creation, whose borrow
    metadata is null. *)
Theorem created_book_is_listed :
  forall db title author isbn current_user created_now updated_now violation
         commit e entries,
    references_books db ->
    get_all_books db = Ok entries ->
    fst (main.create_book db title author isbn current_user created_now
           updated_now violation commit) = Ok e ->
    get_all_books
      (snd (main.create_book db title author isbn current_user created_now
              updated_now violation commit))
    = Ok (entries ++ [e]) /\
    null_metadata e /\
    schemas.Book.is_available e = true.
Proof.
  intros db title author isbn current_user created_now updated_now violation
    commit e entries Href Hlist Hout.
  destruct (main_create_book_Ok _ _ _ _ _ _ _ _ _ _ Hout)
    as [_ [_ [_ [Hval ->]]]].
  set (b := Book.mk (next_id (map Book.id (books db))) title author isbn true
              created_now (Some updated_now)) in *.
  assert (Hnone : borrows_of b (book_borrows db) = []).
  { apply fresh_book_has_no_borrows; [assumption | apply next_id_fresh]. }
  destruct (model_validate_Book_inv _ _ _ _ _ Hval) as [Hof [H1 [H2 H3]]].
  split; [|split].
  - unfold get_all_books in *. cbn [books book_borrows]. unfold outerjoin in *.
    rewrite flat_map_app. apply comprehension_app; [exact Hlist|].
    cbn [flat_map]. rewrite Hnone. cbn [app comprehension]. now rewrite Hval.
  - unfold null_metadata. auto.
  - destruct Hof as [_ [_ [_ [_ [Ha _]]]]]. exact Ha.
Qed.

Lemma created_book_is_listed_witness :
  exists e,
    get_all_books
      (snd (main.create_book returned_db "Second Book" "Test Author"
              "1234567890143" sample_user 10 11
              "UNIQUE constraint failed: books.isbn" Committed))
    = Ok ([schemas.Book.mk "Test Book" "Test Author" "1234567890322" 1 true 0
             (Some 5002) (Some 1000) (Some 5000) (Some 5001)] ++ [e]) /\
    null_metadata e.
Proof.
  eexists.
  refine (let H := created_book_is_listed returned_db "Second Book" "Test Author"
                     "1234567890143" sample_user 10 11
                     "UNIQUE constraint failed: books.isbn" Committed _ _ _ _ _
          in conj (proj1 H) (proj1 (proj2 H))).
  - intros r [<- | []]. exists (refreshed (Book.set_is_available false 1001
                                              sample_book) true 5002).
    split; [now left | reflexivity].
  - reflexivity.
  - reflexivity.
Defined.

(** X16.  A created book can be borrowed at once: after a successful
    creation a Borrow of the returned id succeeds for any member when the
    commit goes through. *)
Theorem created_book_can_be_borrowed :
  forall db title author isbn current_user created_now updated_now violation
         commit e m now flush_now,
    fst (main.create_book db title author isbn current_user created_now
           updated_now violation commit) = Ok e ->
    let db' := snd (main.create_book db title author isbn current_user
                      created_now updated_now violation commit) in
    exists borrow,
      fst (borrow_book db' (schemas.Book.id e) m now flush_now Committed)
      = Ok borrow /\
      BookBorrow.book_id borrow = schemas.Book.id e /\
      BookBorrow.user_id borrow = m /\
      BookBorrow.return_date borrow = None.
Proof.
  intros db title author isbn current_user created_now updated_now violation
    commit e m now flush_now Hout db'.
  destruct (main_create_book_Ok _ _ _ _ _ _ _ _ _ _ Hout)
    as [_ [_ [_ [Hval Hdb]]]].
  destruct (model_validate_Book_inv _ _ _ _ _ Hval) as [[Hid _] _].
  simpl in Hid. subst db'. rewrite Hdb, Hid.
  rewrite (borrow_book_available _ _ _ _ _
             (Book.mk (next_id (map Book.id (books db))) title author isbn true
                created_now (Some updated_now))).
  - eexists. split; [reflexivity|]. simpl. auto.
  - apply (query_book_created (users db) (books db) (book_borrows db)
             (Book.mk (next_id (map Book.id (books db))) title author isbn true
                created_now (Some updated_now))).
    apply next_id_fresh.
  - reflexivity.
Qed.

Lemma created_book_can_be_borrowed_witness :
  exists borrow,
    fst (borrow_book
           (snd (main.create_book sample_db "Second Book" "Test Author"
                   "1234567890143" sample_user 10 11
                   "UNIQUE constraint failed: books.isbn" Committed))
           2 1 2000 2001 Committed) = Ok borrow /\
    BookBorrow.book_id borrow = 2.
Proof.
  destruct (created_book_can_be_borrowed sample_db "Second Book" "Test Author"
              "1234567890143" sample_user 10 11
              "UNIQUE constraint failed: books.isbn" Committed
              (schemas.Book.mk "Second Book" "Test Author" "1234567890143" 2
                 true 10 (Some 11) None None None)
              1 2000 2001 eq_refl)
    as [borrow [H [Hb _]]].
  exists borrow. split; [exact H | exact Hb].
Defined.

(** * Deleting a user *)

Lemma get_user_Some : forall db user_id u,
  UserRepository.get_user db user_id = Some u ->
  In u (users db) /\ User.id u = user_id.
Proof.
  unfold UserRepository.get_user. intros db user_id u H.
  apply find_some in H. destruct H as [Hin Heq].
  split; [assumption | now apply Z.eqb_eq].
Qed.

Lemma get_user_None : forall db user_id,
  UserRepository.get_user db user_id = None <->
  forall u, In u (users db) -> User.id u <> user_id.
Proof.
  unfold UserRepository.get_user. intros db user_id. split.
  - intros H u Hin. pose proof (find_none _ _ H u Hin) as Hn. simpl in Hn.
    now apply Z.eqb_neq.
  - intros H. destruct (find _ _) as [u|] eqn:E; [|reflexivity].
    exfalso. apply find_some in E. destruct E as [Hin Heq].
    apply Z.eqb_eq in Heq. exact (H u Hin Heq).
Qed.

(** The route and the repository delete the same rows. *)
Lemma main_delete_user_state : forall db user_id current_user commit,
  snd (main.delete_user db user_id current_user commit)
  = match UserRepository.get_user db user_id, commit with
    | Some db_user, Committed => UserRepository.flush_delete db_user db
    | _, _ => db
    end.
Proof.
  intros db user_id current_user commit.
  unfold main.delete_user, UserRepository.delete_user.
  destruct (UserRepository.get_user db user_id) as [u|]; [|reflexivity].
  destruct commit; reflexivity.
Qed.

Lemma main_delete_user_succeeds : forall db user_id current_user commit,
  succeeds (fst (main.delete_user db user_id current_user commit)) <->
  (exists u, UserRepository.get_user db user_id = Some u) /\ commit = Committed.
Proof.
  intros db user_id current_user commit.
  unfold main.delete_user, UserRepository.delete_user.
  destruct (UserRepository.get_user db user_id) as [u|].
  - destruct commit; simpl; split.
    + intros _. split; [now exists u | reflexivity].
    + intros _. eexists. reflexivity.
    + intros [a Ha]. discriminate.
    + intros [_ H]. discriminate.
  - simpl. split.
    + intros [a Ha]. discriminate.
    + intros [[u Hu] _]. discriminate.
Qed.

Lemma delete_borrows_In : forall loaded rows r,
  In r (UserRepository.delete_borrows loaded rows) <->
  In r rows /\ forall x, In x loaded -> BookBorrow.id x <> BookBorrow.id r.
Proof.
  intros loaded rows r. unfold UserRepository.delete_borrows.
  rewrite filter_In. split; intros [Hin H]; (split; [assumption|]).
  - intros x Hx E. apply negb_true_iff in H.
    assert (Ht : existsb (fun x => BookBorrow.id x =? BookBorrow.id r) loaded = true).
    { apply existsb_exists. exists x. split; [assumption | now apply Z.eqb_eq]. }
    congruence.
  - apply negb_true_iff.
    destruct (existsb _ loaded) eqn:Et; [|reflexivity].
    apply existsb_exists in Et. destruct Et as [x [Hx E]].
    apply Z.eqb_eq in E. exfalso. exact (H x Hx E).
Qed.

(** X17.  The route that deletes a user answers 404 exactly when no user
    has the id, and every failure leaves the store as it was.  A deletion
    that goes through removes the users with that id and, with them, every
    borrow record of that member, open or closed; it keeps the books as
    they are and, when the keys of the borrow records are distinct, every
    borrow record of the other members. *)
Theorem delete_user_contract :
  forall db user_id current_user commit,
    let out := main.delete_user db user_id current_user commit in
    (NotFound (fst out) <-> forall u, In u (users db) -> User.id u <> user_id) /\
    (~ succeeds (fst out) -> snd out = db) /\
    (succeeds (fst out) ->
       books (snd out) = books db /\
       (forall u, In u (users (snd out)) <->
                  In u (users db) /\ User.id u <> user_id) /\
       (forall r, In r (book_borrows (snd out)) ->
                  In r (book_borrows db) /\ BookBorrow.user_id r <> user_id) /\
       (NoDup (map BookBorrow.id (book_borrows db)) ->
        forall r, In r (book_borrows db) -> BookBorrow.user_id r <> user_id ->
                  In r (book_borrows (snd out)))).
Proof.
  intros db user_id current_user commit out.
  split; [|split].
  - subst out. unfold main.delete_user, UserRepository.delete_user.
    destruct (UserRepository.get_user db user_id) as [u|] eqn:Hu.
    + destruct (get_user_Some _ _ _ Hu) as [Hin Hid].
      destruct commit; simpl; (split; [discriminate|]);
        intros H; exfalso; exact (H u Hin Hid).
    + simpl. split; [intros _; now apply get_user_None | reflexivity].
  - intros Hfail. subst out. rewrite main_delete_user_state.
    destruct (UserRepository.get_user db user_id) as [u|] eqn:Hu; [|reflexivity].
    destruct commit; [|reflexivity].
    exfalso. apply Hfail. apply main_delete_user_succeeds.
    split; [now exists u | reflexivity].
  - intros Hok. subst out. apply main_delete_user_succeeds in Hok.
    destruct Hok as [[u Hu] ->]. rewrite main_delete_user_state, Hu.
    destruct (get_user_Some _ _ _ Hu) as [_ Hid].
    unfold UserRepository.flush_delete. simpl. rewrite Hid.
    split; [reflexivity|]. split; [|split].
    + intros x. rewrite filter_In, negb_true_iff, Z.eqb_neq. reflexivity.
    + intros r Hr. apply delete_borrows_In in Hr. destruct Hr as [Hin Hno].
      split; [assumption|]. intros E. apply (Hno r); [|reflexivity].
      unfold UserRepository.books_of. apply filter_In.
      split; [assumption|]. apply Z.eqb_eq. congruence.
    + intros Hnd r Hin Hne. apply delete_borrows_In. split; [assumption|].
      intros x Hx E. unfold UserRepository.books_of in Hx.
      apply filter_In in Hx. destruct Hx as [Hx Hux]. apply Z.eqb_eq in Hux.
      rewrite (NoDup_key_unique _ _ _ Hnd Hx Hin E) in Hux. congruence.
Qed.

Lemma delete_user_contract_witness :
  books (snd (main.delete_user borrowed_db 1 sample_user Committed))
  = books borrowed_db /\
  book_borrows (snd (main.delete_user borrowed_db 1 sample_user Committed)) = [].
Proof.
  destruct (delete_user_contract borrowed_db 1 sample_user Committed)
    as [_ [_ H]].
  destruct H as [Hb _]; [eexists; reflexivity|].
  split; [exact Hb | reflexivity].
Defined.

(** ** The loan of a deleted member *)

Lemma filter_nil : forall (A : Type) (p : A -> bool) l,
  filter p l = [] <-> forall x, In x l -> p x = false.
Proof.
  intros A p l. induction l as [|a l IH]; simpl.
  - split; [intros _ x [] | reflexivity].
  - destruct (p a) eqn:E; split.
    + discriminate.
    + intros H. specialize (H a (or_introl eq_refl)). congruence.
    + intros H x [<- | Hx]; [assumption | now apply IH].
    + intros H. apply IH. intros x Hx. apply H. now right.
Qed.

Lemma find_update_other : forall (f : Book.t -> Book.t) k k' rows,
  (forall x, Book.id (f x) = Book.id x) -> k' <> k ->
  find (fun b => Book.id b =? k)
    (map (fun x => if Book.id x =? k' then f x else x) rows)
  = find (fun b => Book.id b =? k) rows.
Proof.
  intros f k k' rows Hid Hne. induction rows as [|x rows IH]; simpl;
    [reflexivity|].
  destruct (Book.id x =? k') eqn:E.
  - rewrite Hid. apply Z.eqb_eq in E.
    assert (Hk : (Book.id x =? k) = false) by (apply Z.eqb_neq; congruence).
    rewrite Hk. exact IH.
  - destruct (Book.id x =? k); [reflexivity | exact IH].
Qed.

Lemma query_book_flush_other : forall db us rs book v flush_now k,
  Book.id book <> k ->
  query_book {| users := us;
                books := flush_is_available book v flush_now (books db);
                book_borrows := rs |} k
  = query_book db k.
Proof.
  intros db us rs book v flush_now k Hne. unfold query_book, flush_is_available.
  simpl. destruct (Bool.eqb (Book.is_available book) v); [reflexivity|].
  now apply find_update_other.
Qed.

Lemma orphaned_refuses : forall db b,
  orphaned db b ->
  (forall m now flush_now commit,
     borrow_book db b m now flush_now commit
     = (Raise (HTTPException HTTP_400_BAD_REQUEST "Book is already borrowed"), db)) /\
  (forall m t_due t_ret flush_now commit,
     return_book db b m t_due t_ret flush_now commit
     = (Raise (HTTPException HTTP_404_NOT_FOUND "No active borrow found"), db)).
Proof.
  intros db b [[book [Hq Ha]] Hzero]. split.
  - intros. now apply (borrow_book_unavailable _ _ _ _ _ _ book).
  - intros. apply return_book_no_borrow.
    destruct (query_active_borrow db b m) as [r|] eqn:Hr; [|reflexivity].
    destruct (query_active_borrow_Some _ _ _ _ Hr) as [Hin Hact].
    apply active_is_open_for in Hact.
    pose proof (open_count_positive db b r Hin Hact). lia.
Qed.

Lemma orphaned_step : forall db b o, orphaned db b -> orphaned (step db o) b.
Proof.
  intros db b o Horph.
  destruct (orphaned_refuses db b Horph) as [Hborrow Hreturn].
  destruct Horph as [[book [Hq Ha]] Hzero].
  assert (Hnone : forall x, In x (book_borrows db) -> open_for b x = false).
  { apply filter_nil. unfold open_count, open_borrows in Hzero.
    now apply length_zero_iff_nil. }
  destruct o as [b' m now flush_now commit | b' m t_due t_ret flush_now commit];
    simpl.
  - destruct (Z.eq_dec b' b) as [-> | Hne].
    { rewrite Hborrow. simpl. split; [now exists book | assumption]. }
    destruct commit as [|msg];
      [|rewrite borrow_book_rollback; split; [now exists book | assumption]].
    destruct (query_book db b') as [book'|] eqn:Hq';
      [|rewrite (borrow_book_missing _ _ _ _ _ _ Hq');
        split; [now exists book | assumption]].
    destruct (Book.is_available book') eqn:Ha';
      [|rewrite (borrow_book_unavailable _ _ _ _ _ _ _ Hq' Ha');
        split; [now exists book | assumption]].
    rewrite (borrow_book_available _ _ _ _ _ _ Hq' Ha'). simpl. split.
    + exists book. split; [|assumption]. unfold query_book in *. simpl.
      now rewrite find_update_other.
    + rewrite open_count_insert. unfold open_for. simpl.
      apply Z.eqb_neq in Hne. rewrite Hne. simpl.
      change (open_count {| users := users db; books := _;
                            book_borrows := book_borrows db |} b)
        with (open_count db b). lia.
  - destruct (Z.eq_dec b' b) as [-> | Hne].
    { rewrite Hreturn. simpl. split; [now exists book | assumption]. }
    destruct commit as [|msg];
      [|rewrite return_book_rollback; split; [now exists book | assumption]].
    destruct (query_active_borrow db b' m) as [r|] eqn:Hr;
      [|rewrite (return_book_no_borrow _ _ _ _ _ _ _ Hr);
        split; [now exists book | assumption]].
    destruct (query_book db b') as [book'|] eqn:Hq';
      [|rewrite (return_book_no_book _ _ _ _ _ _ _ _ Hr Hq');
        split; [now exists book | assumption]].
    rewrite (return_book_committed _ _ _ _ _ _ _ _ Hr Hq'). simpl.
    destruct (query_book_Some _ _ _ Hq') as [_ Hid']. split.
    + exists book. split; [|assumption].
      rewrite query_book_flush_other; [assumption | congruence].
    + unfold open_count, open_borrows. simpl.
      apply length_zero_iff_nil, filter_nil.
      intros x Hx. unfold flush_borrow in Hx. apply in_map_iff in Hx.
      destruct Hx as [y [<- Hy]].
      destruct (BookBorrow.id y =? BookBorrow.id r); [|now apply Hnone].
      unfold open_for, is_open. simpl. apply andb_false_r.
Qed.

Lemma orphaned_run : forall ops db b, orphaned db b -> orphaned (run db ops) b.
Proof.
  unfold run. induction ops as [|o ops IH]; simpl; intros db b H; [assumption|].
  apply IH. now apply orphaned_step.
Qed.

(** X18.  Deleting a member who holds a book strands the book: the cascade
    deletes the open borrow record and leaves the book unavailable, which
    breaks the availability invariant, and from then on, after any sequence
    of Borrow and Return operations, every Borrow of the book is refused
    with 400 and every Return of it with 404. *)
Theorem deleted_member_strands_book :
  forall db b m current_user book r u,
    ledger_invariant db ->
    query_book db b = Some book ->
    In r (book_borrows db) -> active_borrow b m r = true ->
    UserRepository.get_user db m = Some u ->
    let db' := snd (main.delete_user db m current_user Committed) in
    orphaned db' b /\
    ~ availability_invariant db' /\
    forall ops,
      orphaned (run db' ops) b /\
      (forall m' now flush_now commit,
         Conflict (fst (borrow_book (run db' ops) b m' now flush_now commit))) /\
      (forall m' t_due t_ret flush_now commit,
         NotFound (fst (return_book (run db' ops) b m' t_due t_ret flush_now
                          commit))).
Proof.
  intros db b m current_user book r u [Hnd Hcount] Hq Hin Hact Hu db'.
  destruct (query_book_Some _ _ _ Hq) as [Hbook Hid].
  destruct (get_user_Some _ _ _ Hu) as [_ Huid].
  pose proof (active_is_open_for _ _ _ Hact) as Hopen.
  pose proof (open_count_positive db b r Hin Hopen) as Hpos.
  pose proof (Hcount book Hbook) as Hone. rewrite Hid in Hone.
  destruct (Book.is_available book) eqn:Ha; [lia|].
  destruct (active_borrow_fields _ _ _ Hact) as [_ [Hru _]].
  assert (Horph : orphaned db' b).
  { subst db'. rewrite main_delete_user_state, Hu.
    split; [now exists book|].
    unfold open_count, open_borrows, UserRepository.flush_delete. simpl.
    apply length_zero_iff_nil, filter_nil. intros x Hx.
    apply delete_borrows_In in Hx. destruct Hx as [Hx Hno].
    destruct (open_for b x) eqn:Hox; [|reflexivity]. exfalso.
    assert (Heq : r = x).
    { apply (singleton_members _ (open_borrows db b)); [exact Hone | |];
        apply filter_In; auto. }
    subst x. apply (Hno r); [|reflexivity].
    unfold UserRepository.books_of. apply filter_In. split; [assumption|].
    apply Z.eqb_eq. congruence. }
  split; [exact Horph|]. split.
  - intros Hav. destruct Horph as [[book' [Hq' Ha']] Hzero].
    destruct (query_book_Some _ _ _ Hq') as [Hbook' Hid'].
    pose proof (proj1 (Hav book' Hbook') Ha') as H. rewrite Hid' in H. lia.
  - intros ops. pose proof (orphaned_run ops db' b Horph) as Hrun.
    destruct (orphaned_refuses _ _ Hrun) as [Hborrow Hreturn].
    split; [exact Hrun|]. split; intros.
    + now rewrite Hborrow.
    + now rewrite Hreturn.
Qed.

Lemma deleted_member_strands_book_witness :
  orphaned (snd (main.delete_user borrowed_db 1 sample_user Committed)) 1 /\
  ~ availability_invariant
      (snd (main.delete_user borrowed_db 1 sample_user Committed)).
Proof.
  destruct (deleted_member_strands_book borrowed_db 1 1 sample_user
              (Book.set_is_available false 1001 sample_book)
              (BookBorrow.mk 1 1 1 1000 604800001000 None) sample_user)
    as [H1 [H2 _]].
  - apply borrow_book_preserves, initial_ledger_invariant, sample_db_initial.
  - reflexivity.
  - now left.
  - reflexivity.
  - reflexivity.
  - split; [exact H1 | exact H2].
Defined.

(** * Creating a user *)

Lemma find_insert_fresh : forall (A : Type) (p : A -> bool) l x,
  (forall y, In y l -> p y = false) -> p x = true ->
  find p (l ++ [x]) = Some x.
Proof.
  intros A p l x Hl Hx. rewrite find_insert.
  destruct (find p l) as [y|] eqn:E.
  - apply find_some in E. destruct E as [Hy Hp]. rewrite (Hl y Hy) in Hp.
    discriminate.
  - now rewrite Hx.
Qed.

Lemma create_user_Ok : forall db user created_now updated_now violation commit u,
  fst (UserRepository.create_user db user created_now updated_now violation
         commit) = Ok u ->
  ~ In (schemas.UserCreate.email user) (map User.email (users db)) /\
  u = User.mk (next_id (map User.id (users db)))
        (schemas.UserCreate.email user) (schemas.UserCreate.username user)
        true (schemas.UserCreate.password user) created_now (Some updated_now) /\
  snd (UserRepository.create_user db user created_now updated_now violation
         commit)
  = {| users := users db ++ [u];
       books := books db;
       book_borrows := book_borrows db |}.
Proof.
  intros db user created_now updated_now violation commit u.
  unfold UserRepository.create_user.
  destruct (existsb (String.eqb (schemas.UserCreate.email user))
              (map User.email (users db))) eqn:Hdup; [discriminate|].
  destruct commit; [|discriminate]. simpl. intros H. injection H as <-.
  split; [|split; reflexivity].
  intros Hin.
  assert (Ht : existsb (String.eqb (schemas.UserCreate.email user))
                 (map User.email (users db)) = true).
  { apply existsb_exists. exists (schemas.UserCreate.email user).
    split; [assumption | apply String.eqb_refl]. }
  congruence.
Qed.

Lemma create_user_get_user :
  forall db user created_now updated_now violation commit u,
    fst (UserRepository.create_user db user created_now updated_now violation
           commit) = Ok u ->
    ~ In (User.id u) (map User.id (users db)) /\
    UserRepository.get_user
      (snd (UserRepository.create_user db user created_now updated_now
              violation commit)) (User.id u) = Some u.
Proof.
  intros db user created_now updated_now violation commit u Hok.
  destruct (create_user_Ok _ _ _ _ _ _ _ Hok) as [_ [Hu Hdb]]. rewrite Hdb.
  pose proof (next_id_fresh (map User.id (users db))) as Hfresh.
  assert (Hid : User.id u = next_id (map User.id (users db)))
    by (rewrite Hu; reflexivity).
  split; [now rewrite Hid|].
  unfold UserRepository.get_user. simpl. apply find_insert_fresh.
  - intros y Hy. apply Z.eqb_neq. intros E. apply Hfresh.
    rewrite <- Hid, <- E. now apply in_map.
  - apply Z.eqb_refl.
Qed.

(** X19.  A created user can be looked up at once: after a successful
    [create_user] both the lookup by the returned id and the lookup by the
    email find the created row, which is active and stores the password
    field of the request as its hash; an email that is already stored makes
    the insert fail with 500 and changes nothing. *)
Theorem create_user_lookup :
  forall db user created_now updated_now violation commit,
    let out := UserRepository.create_user db user created_now updated_now
                 violation commit in
    (In (schemas.UserCreate.email user) (map User.email (users db)) ->
       out = (Raise (HTTPException HTTP_500_INTERNAL_SERVER_ERROR
                       (String.append "Failed to create user: " violation)), db)) /\
    (forall u, fst out = Ok u ->
       UserRepository.get_user (snd out) (User.id u) = Some u /\
       UserRepository.get_user_by_email (snd out) (schemas.UserCreate.email user)
       = Some u /\
       ~ In (User.id u) (map User.id (users db)) /\
       User.is_active u = true /\
       User.hashed_password u = schemas.UserCreate.password user /\
       books (snd out) = books db /\
       book_borrows (snd out) = book_borrows db).
Proof.
  intros db user created_now updated_now violation commit out. split.
  - intros Hin. subst out. unfold UserRepository.create_user.
    assert (Ht : existsb (String.eqb (schemas.UserCreate.email user))
                   (map User.email (users db)) = true).
    { apply existsb_exists. exists (schemas.UserCreate.email user).
      split; [assumption | apply String.eqb_refl]. }
    now rewrite Ht.
  - intros u Hok. subst out.
    destruct (create_user_get_user _ _ _ _ _ _ _ Hok) as [Hfresh Hget].
    destruct (create_user_Ok _ _ _ _ _ _ _ Hok) as [Hnew [Hu Hdb]].
    assert (Hemail : User.email u = schemas.UserCreate.email user)
      by (rewrite Hu; reflexivity).
    split; [exact Hget|]. rewrite Hdb.
    split; [|split; [|split; [|split; [|split]]]].
    + unfold UserRepository.get_user_by_email. simpl. apply find_insert_fresh.
      * intros y Hy. apply String.eqb_neq. intros E. apply Hnew.
        rewrite <- E. now apply in_map.
      * rewrite Hemail. apply String.eqb_refl.
    + exact Hfresh.
    + rewrite Hu. reflexivity.
    + rewrite Hu. reflexivity.
    + reflexivity.
    + reflexivity.
Qed.

Lemma create_user_lookup_witness :
  exists u,
    fst (UserRepository.create_user sample_db
           (schemas.UserCreate.mk "test3@example.com" "testuser3" "bcrypt-hash")
           20 21 "UNIQUE constraint failed: users.email" Committed) = Ok u /\
    UserRepository.get_user_by_email
      (snd (UserRepository.create_user sample_db
              (schemas.UserCreate.mk "test3@example.com" "testuser3" "bcrypt-hash")
              20 21 "UNIQUE constraint failed: users.email" Committed))
      "test3@example.com" = Some u.
Proof.
  eexists. split; [reflexivity|].
  apply (create_user_lookup sample_db
           (schemas.UserCreate.mk "test3@example.com" "testuser3" "bcrypt-hash")
           20 21 "UNIQUE constraint failed: users.email" Committed).
  reflexivity.
Defined.

Lemma filter_insert_fresh : forall (A : Type) (p : A -> bool) l x,
  (forall y, In y l -> p y = true) -> p x = false -> filter p (l ++ [x]) = l.
Proof.
  intros A p l x Hl Hx. rewrite filter_app. simpl. rewrite Hx, app_nil_r.
  induction l as [|a l IH]; simpl; [reflexivity|].
  rewrite (Hl a (or_introl eq_refl)). f_equal.
  apply IH. intros y Hy. apply Hl. now right.
Qed.

(** X20.  Creating a user and deleting it again restores the store: when
    no borrow record carries the id the new user gets, the users, the books
    and the borrow records after the deletion are those before the
    creation. *)
Theorem create_then_delete_user :
  forall db user created_now updated_now violation commit u current_user,
    fst (UserRepository.create_user db user created_now updated_now violation
           commit) = Ok u ->
    (forall r, In r (book_borrows db) -> BookBorrow.user_id r <> User.id u) ->
    let db' := snd (UserRepository.create_user db user created_now updated_now
                      violation commit) in
    succeeds (fst (main.delete_user db' (User.id u) current_user Committed)) /\
    snd (main.delete_user db' (User.id u) current_user Committed) = db.
Proof.
  intros db user created_now updated_now violation commit u current_user
    Hok Hrefs db'.
  destruct (create_user_get_user _ _ _ _ _ _ _ Hok) as [Hfresh Hget].
  destruct (create_user_Ok _ _ _ _ _ _ _ Hok) as [_ [_ Hdb]].
  fold db' in Hget, Hdb. split.
  - apply main_delete_user_succeeds. split; [now exists u | reflexivity].
  - rewrite main_delete_user_state, Hget.
    unfold UserRepository.flush_delete. rewrite Hdb. simpl.
    assert (Hnone : UserRepository.books_of u (book_borrows db) = []).
    { unfold UserRepository.books_of. apply filter_nil.
      intros r Hr. apply Z.eqb_neq. now apply Hrefs. }
    rewrite Hnone. unfold UserRepository.delete_borrows. simpl.
    rewrite filter_insert_fresh.
    + destruct db as [us bs rs]. simpl. f_equal.
      clear. induction rs as [|r rs IH]; simpl; [reflexivity | now f_equal].
    + intros y Hy. apply negb_true_iff, Z.eqb_neq. intros E. apply Hfresh.
      rewrite <- E. now apply in_map.
    + now rewrite Z.eqb_refl.
Qed.

Lemma create_then_delete_user_witness :
  snd (main.delete_user
         (snd (UserRepository.create_user borrowed_db
                 (schemas.UserCreate.mk "test3@example.com" "testuser3"
                    "bcrypt-hash")
                 20 21 "UNIQUE constraint failed: users.email" Committed))
         2 sample_user Committed)
  = borrowed_db.
Proof.
  apply (create_then_delete_user borrowed_db
           (schemas.UserCreate.mk "test3@example.com" "testuser3" "bcrypt-hash")
           20 21 "UNIQUE constraint failed: users.email" Committed
           (User.mk 2 "test3@example.com" "testuser3" true "bcrypt-hash" 20
              (Some 21)) sample_user).
  - reflexivity.
  - intros r [<- | []]. discriminate.
Defined.
